(** * A bank node: ledger and command dispatcher of [bank_node.py]

    The development embeds the two classes of [bank_node.py] that carry the
    program's logic: [BankData] (the ledger with its persistence file) and
    [BankServer.process_command] together with [parse_account_spec] and
    [is_valid_ip] (the line protocol).

    Conventions of the embedding.
    - A Python [str] is a [string]; the character classes below are the
      ASCII ones, so the model is exact on ASCII text.
    - A Python [int] is a [Z] (unbounded, no limit on the number of digits).
    - The dictionary [accounts] is a [gmap string Z]: its keys are the
      strings [str(account_number)], as in the source. The counter and the
      balances are integers by their type; a file that would load anything
      else is outside of the model (see [load]).
    - The file [data_file] is a JSON document, as [json.dump] writes and
      [json.load] reads it; the ledger keeps every document written, so
      that a call that does not write is told from one that writes the
      same again. A write that fails (logged and ignored by [save]) is not
      modelled.
    - A raised exception is a value: [outcome A] is either [Return a] or
      [Raise e]; ledger methods thread the ledger state explicitly. The
      lock of [BankData] serialises the calls; a history is a list of
      calls. *)

From stdpp Require Import gmap strings list fin_maps pretty.
From Stdlib Require Import ZArith Ascii String Bool Sorted.

Local Open Scope string_scope.
Local Open Scope Z_scope.

(** ** Exceptions *)

Inductive exn : Type :=
| ValueError
| KeyError
| TypeError
| OtherError (msg : string).

Inductive outcome (A : Type) : Type :=
| Return (a : A)
| Raise (e : exn).
Arguments Return {A} a.
Arguments Raise {A} e.

(** ** The Python built-ins the program calls *)

Module Py.

Definition LF : ascii := "010"%char.

(** [str.isspace] on ASCII: TAB, LF, VT, FF, CR, FS, GS, RS, US, SPACE. *)
Definition is_space (c : ascii) : bool :=
  let n := N_of_ascii c in
  ((9 <=? n) && (n <=? 13) || (28 <=? n) && (n <=? 32))%N.

Definition is_digit (c : ascii) : bool :=
  let n := N_of_ascii c in ((48 <=? n) && (n <=? 57))%N.

Definition digit_value (c : ascii) : Z := Z.of_N (N_of_ascii c) - 48.

Definition is_lower (c : ascii) : bool :=
  let n := N_of_ascii c in ((97 <=? n) && (n <=? 122))%N.

Definition upper_char (c : ascii) : ascii :=
  if is_lower c then ascii_of_N (N_of_ascii c - 32) else c.

(** [s.upper()] *)
Fixpoint upper (s : string) : string :=
  match s with
  | EmptyString => EmptyString
  | String c r => String (upper_char c) (upper r)
  end.

Definition cons_word (w : string) (ws : list string) : list string :=
  match w with
  | EmptyString => ws
  | _ => w :: ws
  end.

(** The word being read at the head of [s], and the words after it. *)
Fixpoint split_go (s : string) : string * list string :=
  match s with
  | EmptyString => (EmptyString, [])
  | String c r =>
      let '(w, ws) := split_go r in
      if is_space c then (EmptyString, cons_word w ws) else (String c w, ws)
  end.

(** [s.split()]: the maximal runs of non-blank characters. *)
Definition split (s : string) : list string :=
  let '(w, ws) := split_go s in cons_word w ws.

Fixpoint split_on_go (sep : ascii) (s : string) : string * list string :=
  match s with
  | EmptyString => (EmptyString, [])
  | String c r =>
      let '(w, ws) := split_on_go sep r in
      if Ascii.eqb c sep then (EmptyString, w :: ws) else (String c w, ws)
  end.

(** [s.split(sep)] for a one-character separator: empty fields are kept. *)
Definition split_on (sep : ascii) (s : string) : list string :=
  let '(w, ws) := split_on_go sep s in w :: ws.

Fixpoint lstrip (s : string) : string :=
  match s with
  | EmptyString => EmptyString
  | String c r => if is_space c then lstrip r else s
  end.

Fixpoint rstrip (s : string) : string :=
  match s with
  | EmptyString => EmptyString
  | String c r =>
      match rstrip r with
      | EmptyString => if is_space c then EmptyString else String c EmptyString
      | r' => String c r'
      end
  end.

(** [s.strip()] *)
Definition strip (s : string) : string := lstrip (rstrip s).

(** The digits of an integer literal: groups of digits separated by
    single underscores. [prev] tells whether the previous character was a
    digit; [acc] is the value read so far. *)
Fixpoint int_digits (acc : Z) (prev : bool) (s : string) : option Z :=
  match s with
  | EmptyString => if prev then Some acc else None
  | String c r =>
      if is_digit c then int_digits (10 * acc + digit_value c) true r
      else if Ascii.eqb c "_" then
             (if prev then int_digits acc false r else None)
      else None
  end.

(** [int(s)] in base ten; [None] stands for [ValueError]. Blanks around
    the literal are dropped, one sign is allowed, underscores may
    separate digits. *)
Definition int (s : string) : option Z :=
  match strip s with
  | String "+" r => int_digits 0 false r
  | String "-" r => Z.opp <$> int_digits 0 false r
  | r => int_digits 0 false r
  end.

(** [str(n)] for an integer [n]. *)
Definition str (n : Z) : string := pretty n.

(** [str(x)] for [x] an integer or [None]. *)
Definition str_opt (x : option Z) : string :=
  match x with
  | Some n => str n
  | None => "None"
  end.

End Py.

(** ** Regular expressions, as far as [is_valid_ip] needs them *)

Module Re.

Inductive regex : Type :=
| Void
| Eps
| Class (p : ascii → bool)
| Cat (r1 r2 : regex)
| Alt (r1 r2 : regex).

Fixpoint nullable (r : regex) : bool :=
  match r with
  | Void => false
  | Eps => true
  | Class _ => false
  | Cat r1 r2 => nullable r1 && nullable r2
  | Alt r1 r2 => nullable r1 || nullable r2
  end.

(** The residual of [r] after reading [c]. *)
Fixpoint deriv (c : ascii) (r : regex) : regex :=
  match r with
  | Void => Void
  | Eps => Void
  | Class p => if p c then Eps else Void
  | Cat r1 r2 =>
      if nullable r1 then Alt (Cat (deriv c r1) r2) (deriv c r2)
      else Cat (deriv c r1) r2
  | Alt r1 r2 => Alt (deriv c r1) (deriv c r2)
  end.

(** [accepts r s]: the whole of [s] is a word of [r]. *)
Fixpoint accepts (r : regex) (s : string) : bool :=
  match s with
  | EmptyString => nullable r
  | String c s' => accepts (deriv c r) s'
  end.

(** [r{n}] *)
Fixpoint times (n : nat) (r : regex) : regex :=
  match n with
  | O => Eps
  | S n' => Cat r (times n' r)
  end.

(** [r{0,n}] *)
Fixpoint upto (n : nat) (r : regex) : regex :=
  match n with
  | O => Eps
  | S n' => Alt Eps (Cat r (upto n' r))
  end.

(** [r{m,n}] *)
Definition between (m n : nat) (r : regex) : regex :=
  Cat (times m r) (upto (n - m) r).

(** The words of [r]. *)
Fixpoint lang (r : regex) (s : string) : Prop :=
  match r with
  | Void => False
  | Eps => s = EmptyString
  | Class p => ∃ c, p c = true ∧ s = String c EmptyString
  | Cat r1 r2 => ∃ s1 s2, s = s1 +:+ s2 ∧ lang r1 s1 ∧ lang r2 s2
  | Alt r1 r2 => lang r1 s ∨ lang r2 s
  end.

(** [s] without its last character when that is a line feed. *)
Fixpoint chop_newline (s : string) : option string :=
  match s with
  | EmptyString => None
  | String c EmptyString => if Ascii.eqb c Py.LF then Some EmptyString else None
  | String c r => String c <$> chop_newline r
  end.

(** [re.match("^r$", s)] as a truth value: [$] holds at the end of the
    string and also just before a line feed that ends the string. *)
Definition match_whole (r : regex) (s : string) : bool :=
  accepts r s ||
  match chop_newline s with
  | Some s' => accepts r s'
  | None => false
  end.

End Re.

(** [\d{1,3}] *)
Definition octet_pattern : Re.regex := Re.between 1 3 (Re.Class Py.is_digit).

(** The pattern [^\d{1,3}(\.\d{1,3}){3}$] without its anchors. *)
Definition ip_pattern : Re.regex :=
  Re.Cat octet_pattern
    (Re.times 3 (Re.Cat (Re.Class (Ascii.eqb ".")) octet_pattern)).

(** [all(0 <= int(part) <= 255 for part in parts)]: stops at the first
    part out of range; [int] may raise. *)
Fixpoint all_octets (parts : list string) : outcome bool :=
  match parts with
  | [] => Return true
  | part :: rest =>
      match Py.int part with
      | None => Raise ValueError
      | Some v => if bool_decide (0 ≤ v ≤ 255) then all_octets rest else Return false
      end
  end.

Definition is_valid_ip (ip : string) : outcome bool :=
  if Re.match_whole ip_pattern ip then all_octets (Py.split_on "." ip)
  else Return false.

(** ** The persistence file *)

#[local] Set Warnings "-register-all".

(** A JSON document with integer numbers. *)
Inductive json : Type :=
| JNull
| JBool (b : bool)
| JInt (n : Z)
| JStr (s : string)
| JArr (items : list json)
| JObj (fields : list (string * json)).

(** What [json.load] makes of the file: a document, or an exception. *)
Inductive file_content : Type :=
| Unparsable
| Document (doc : json).





(** ** The ledger: class [BankData] *)

(** [data_file] holds what has been written to the file of that name,
    the newest contents first; the empty list is a file that does not
    exist. *)
Record BankData : Type := mkBankData {
  last_account : Z;
  accounts : gmap string Z;
  data_file : list file_content
}.

Definition msg_capacity : string :=
  "Naše banka nyní neumožňuje založení nového účtu.".
Definition msg_no_account : string := "Bankovní účet neexistuje.".
Definition msg_insufficient : string := "Není dostatek finančních prostředků.".
Definition msg_nonzero : string :=
  "Nelze smazat bankovní účet na kterém jsou finance.".

(** The dictionary [{"last_account": ..., "accounts": ...}] that [save]
    hands to [json.dump]. *)
Definition dump_data (last : Z) (accts : gmap string Z) : json :=
  JObj [("last_account", JInt last);
        ("accounts", JObj ((λ kv, (kv.1, JInt kv.2)) <$> map_to_list accts))].



(** The ledger of a node started without a file. *)
Definition fresh_ledger : BankData := mkBankData 9999 ∅ [].

(** [save]: the record is written in front of what the file held. *)
Definition save (st : BankData) : BankData :=
  mkBankData (last_account st) (accounts st)
    (Document (dump_data (last_account st) (accounts st)) :: data_file st).

Definition create_account (st : BankData) : BankData * (option Z * option string) :=
  if decide (last_account st >= 99999) then (st, (None, Some msg_capacity))
  else
    let account_number := last_account st + 1 in
    let st1 := mkBankData account_number
                 (<[Py.str account_number := 0]> (accounts st)) (data_file st) in
    (save st1, (Some account_number, None)).

(** In [deposit], [withdraw] and [remove_account] the test
    [str(account_number) not in self.accounts] and the subscripts after
    it read one entry of the dictionary: one lookup here. *)
Definition deposit (account_number amount : Z) (st : BankData)
  : BankData * option string :=
  match accounts st !! Py.str account_number with
  | None => (st, Some msg_no_account)
  | Some balance =>
      let st1 := mkBankData (last_account st)
                   (<[Py.str account_number := balance + amount]> (accounts st))
                   (data_file st) in
      (save st1, None)
  end.

Definition withdraw (account_number amount : Z) (st : BankData)
  : BankData * option string :=
  match accounts st !! Py.str account_number with
  | None => (st, Some msg_no_account)
  | Some balance =>
      if decide (balance < amount) then (st, Some msg_insufficient)
      else
        let st1 := mkBankData (last_account st)
                     (<[Py.str account_number := balance - amount]> (accounts st))
                     (data_file st) in
        (save st1, None)
  end.

Definition get_balance (account_number : Z) (st : BankData) : option Z :=
  accounts st !! Py.str account_number.

Definition remove_account (account_number : Z) (st : BankData)
  : BankData * option string :=
  match accounts st !! Py.str account_number with
  | None => (st, Some msg_no_account)
  | Some balance =>
      if decide (balance ≠ 0) then (st, Some msg_nonzero)
      else
        let st1 := mkBankData (last_account st)
                     (delete (Py.str account_number) (accounts st))
                     (data_file st) in
        (save st1, None)
  end.

Definition total_amount (st : BankData) : Z :=
  map_fold (λ _ balance total, total + balance) 0 (accounts st).

Definition number_of_clients (st : BankData) : Z :=
  Z.of_nat (size (accounts st)).

(** ** The dispatcher: [BankServer.process_command] *)

(** [process_command] reaches the ledger through the methods of the object
    [self.bank_data] only. [Ledger S] is that interface over a ledger
    state [S]: a method may raise, and leaves a state behind in either
    case. *)
Class Ledger (S : Type) : Type := {
  ledger_create_account : S → S * outcome (option Z * option string);
  ledger_deposit : Z → Z → S → S * outcome (option string);
  ledger_withdraw : Z → Z → S → S * outcome (option string);
  ledger_get_balance : Z → S → S * outcome (option Z);
  ledger_remove_account : Z → S → S * outcome (option string);
  ledger_total_amount : S → S * outcome Z;
  ledger_number_of_clients : S → S * outcome Z
}.

(** [BankData] as the ledger of the server: none of its methods raises. *)
#[export] Instance BankData_ledger : Ledger BankData := {
  ledger_create_account st :=
    let '(st', r) := create_account st in (st', Return r);
  ledger_deposit n amount st :=
    let '(st', r) := deposit n amount st in (st', Return r);
  ledger_withdraw n amount st :=
    let '(st', r) := withdraw n amount st in (st', Return r);
  ledger_get_balance n st := (st, Return (get_balance n st));
  ledger_remove_account n st :=
    let '(st', r) := remove_account n st in (st', Return r);
  ledger_total_amount st := (st, Return (total_amount st));
  ledger_number_of_clients st := (st, Return (number_of_clients st))
}.

Definition msg_account_format : string := "Formát čísla účtu není správný.".
Definition msg_ip_format : string := "Formát IP adresy není správný.".
Definition msg_empty : string := "ER Prázdný příkaz.".
Definition msg_bank_mismatch : string := "ER Banka neodpovídá.".
Definition msg_amount_format : string :=
  "ER číslo bankovního účtu a částka není ve správném formátu.".
Definition msg_unknown : string := "ER Neznámý příkaz.".
Definition msg_application : string :=
  "ER Chyba v aplikaci, prosím zkuste to později.".

(** ["ER Příkaz " + verb + " má špatný formát."] *)
Definition msg_wrong_format (verb : string) : string :=
  "ER Příkaz " +:+ verb +:+ " má špatný formát.".

(** [parse_account_spec]: [inl (account_number, ip)] is the triple
    [(account_number, ip, None)], [inr err] is [(None, None, err)]. *)
Definition parse_account_spec (spec : string) : outcome (Z * string + string) :=
  match Py.split_on "/" spec with
  | [account_str; ip] =>
      match Py.int account_str with
      | None => Return (inr msg_account_format)
      | Some account_number =>
          if decide (account_number < 10000 ∨ account_number > 99999)
          then Return (inr msg_account_format)
          else
            match is_valid_ip ip with
            | Raise e => Raise e
            | Return false => Return (inr msg_ip_format)
            | Return true => Return (inl (account_number, ip))
            end
      end
  | _ => Return (inr msg_account_format)
  end.

(** The truth value of [err] in [if err:]. *)
Definition truthy (err : option string) : bool :=
  match err with
  | Some (String _ _) => true
  | _ => false
  end.

Definition err_text (err : option string) : string := default "None" err.

(** [try: amount = int(amount_str); if amount < 0: raise ValueError] with
    [None] for the [except] branch. *)
Definition parse_amount (amount_str : string) : option Z :=
  match Py.int amount_str with
  | None => None
  | Some amount => if decide (amount < 0) then None else Some amount
  end.

Section Dispatcher.

Context {S : Type} `{Ledger S}.

(** A statement sequence over the ledger that may raise. *)
Definition action (A : Type) : Type := S → S * outcome A.

Definition ret {A} (a : A) : action A := λ st, (st, Return a).

Definition bind {A B} (m : action A) (k : A → action B) : action B :=
  λ st, match m st with
        | (st', Return a) => k a st'
        | (st', Raise e) => (st', Raise e)
        end.

Definition lift {A} (o : outcome A) : action A := λ st, (st, o).

(** The lines shared by AD, AW, AB and AR: parse the account
    specification, answer its error if it has one, answer a mismatch if
    it names another bank, and go on with the account number. *)
Definition on_account (bank_ip spec : string) (k : Z → action string)
  : action string :=
  bind (lift (parse_account_spec spec)) (λ parsed,
    match parsed with
    | inr err => ret ("ER " +:+ err)
    | inl (account_number, ip_part) =>
        if decide (ip_part ≠ bank_ip) then ret msg_bank_mismatch
        else k account_number
    end).

(** The answer to the error value [err] of a ledger method, or
    [success] if it is not one. *)
Definition answer (err : option string) (success : string) : string :=
  if truthy err then "ER " +:+ err_text err else success.

(** The body of the [try] statement of [process_command]. *)
Definition dispatch (bank_ip cmd : string) (tokens : list string)
  : action string :=
  if decide (cmd = "BC") then
    match tokens with
    | [_] => ret ("BC " +:+ bank_ip)
    | _ => ret (msg_wrong_format "BC")
    end
  else if decide (cmd = "AC") then
    match tokens with
    | [_] =>
        bind ledger_create_account (λ '(account_number, err),
          ret (answer err
                 ("AC " +:+ Py.str_opt account_number +:+ "/" +:+ bank_ip)))
    | _ => ret (msg_wrong_format "AC")
    end
  else if decide (cmd = "AD") then
    match tokens with
    | [_; account_spec; amount_str] =>
        on_account bank_ip account_spec (λ account_number,
          match parse_amount amount_str with
          | None => ret msg_amount_format
          | Some amount =>
              bind (ledger_deposit account_number amount) (λ err,
                ret (answer err "AD"))
          end)
    | _ => ret (msg_wrong_format "AD")
    end
  else if decide (cmd = "AW") then
    match tokens with
    | [_; account_spec; amount_str] =>
        on_account bank_ip account_spec (λ account_number,
          match parse_amount amount_str with
          | None => ret msg_amount_format
          | Some amount =>
              bind (ledger_withdraw account_number amount) (λ err,
                ret (answer err "AW"))
          end)
    | _ => ret (msg_wrong_format "AW")
    end
  else if decide (cmd = "AB") then
    match tokens with
    | [_; account_spec] =>
        on_account bank_ip account_spec (λ account_number,
          bind (ledger_get_balance account_number) (λ balance,
            match balance with
            | None => ret "ER Bankovní účet neexistuje."
            | Some b => ret ("AB " +:+ Py.str b)
            end))
    | _ => ret (msg_wrong_format "AB")
    end
  else if decide (cmd = "AR") then
    match tokens with
    | [_; account_spec] =>
        on_account bank_ip account_spec (λ account_number,
          bind (ledger_remove_account account_number) (λ err,
            ret (answer err "AR")))
    | _ => ret (msg_wrong_format "AR")
    end
  else if decide (cmd = "BA") then
    match tokens with
    | [_] => bind ledger_total_amount (λ total, ret ("BA " +:+ Py.str total))
    | _ => ret (msg_wrong_format "BA")
    end
  else if decide (cmd = "BN") then
    match tokens with
    | [_] =>
        bind ledger_number_of_clients (λ count, ret ("BN " +:+ Py.str count))
    | _ => ret (msg_wrong_format "BN")
    end
  else ret msg_unknown.

(** [process_command]: the ledger it leaves and its answer. *)
Definition process_command (bank_ip command_line : string) (st : S)
  : S * string :=
  match Py.split command_line with
  | [] => (st, msg_empty)
  | verb :: rest =>
      match dispatch bank_ip (Py.upper verb) (verb :: rest) st with
      | (st', Return response) => (st', response)
      | (st', Raise _) => (st', msg_application)
      end
  end.

End Dispatcher.

(** ** Histories of ledger calls *)

Inductive call : Type :=
| CreateAccount
| Deposit (account_number amount : Z)
| Withdraw (account_number amount : Z)
| GetBalance (account_number : Z)
| RemoveAccount (account_number : Z)
| TotalAmount
| NumberOfClients.

(** The ledger after one call. *)
Definition call_step (c : call) (st : BankData) : BankData :=
  match c with
  | CreateAccount => (create_account st).1
  | Deposit n amount => (deposit n amount st).1
  | Withdraw n amount => (withdraw n amount st).1
  | RemoveAccount n => (remove_account n st).1
  | GetBalance _ | TotalAmount | NumberOfClients => st
  end.

(** The account number a call hands out, if it hands out one. *)
Definition call_issued (c : call) (st : BankData) : option Z :=
  match c with
  | CreateAccount => (create_account st).2.1
  | _ => None
  end.

(** The error a call reports, if it reports one. *)
Definition call_error (c : call) (st : BankData) : option string :=
  match c with
  | CreateAccount => (create_account st).2.2
  | Deposit n amount => (deposit n amount st).2
  | Withdraw n amount => (withdraw n amount st).2
  | RemoveAccount n => (remove_account n st).2
  | GetBalance _ | TotalAmount | NumberOfClients => None
  end.

Fixpoint run (cs : list call) (st : BankData) : BankData :=
  match cs with
  | [] => st
  | c :: cs' => run cs' (call_step c st)
  end.

(** The account numbers handed out by the calls [cs], oldest first. *)
Fixpoint issued (cs : list call) (st : BankData) : list Z :=
  match cs with
  | [] => []
  | c :: cs' =>
      match call_issued c st with
      | Some n => n :: issued cs' (call_step c st)
      | None => issued cs' (call_step c st)
      end
  end.

(** The amounts the dispatcher lets through. *)
Definition amount_ok (c : call) : Prop :=
  match c with
  | Deposit _ amount | Withdraw _ amount => 0 ≤ amount
  | _ => True
  end.

(** What every ledger built by calls on a new one satisfies: the counter
    stays between 9999 and 99999, and each key of [accounts] is the text
    of a number handed out so far. *)
Record ledger_inv (st : BankData) : Prop := {
  inv_counter : 9999 ≤ last_account st ≤ 99999;
  inv_keys : ∀ key balance, accounts st !! key = Some balance →
    ∃ n, key = Py.str n ∧ 10000 ≤ n ≤ last_account st
}.

Definition balances_nonneg (st : BankData) : Prop :=
  ∀ key balance, accounts st !! key = Some balance → 0 ≤ balance.

(** A ledger that also writes down each call made to it, newest first. *)
#[export] Instance recording {S : Type} `{Ledger S} : Ledger (S * list call) := {
  ledger_create_account '(st, log) :=
    let '(st', r) := ledger_create_account st in ((st', CreateAccount :: log), r);
  ledger_deposit n amount '(st, log) :=
    let '(st', r) := ledger_deposit n amount st in
    ((st', Deposit n amount :: log), r);
  ledger_withdraw n amount '(st, log) :=
    let '(st', r) := ledger_withdraw n amount st in
    ((st', Withdraw n amount :: log), r);
  ledger_get_balance n '(st, log) :=
    let '(st', r) := ledger_get_balance n st in ((st', GetBalance n :: log), r);
  ledger_remove_account n '(st, log) :=
    let '(st', r) := ledger_remove_account n st in
    ((st', RemoveAccount n :: log), r);
  ledger_total_amount '(st, log) :=
    let '(st', r) := ledger_total_amount st in ((st', TotalAmount :: log), r);
  ledger_number_of_clients '(st, log) :=
    let '(st', r) := ledger_number_of_clients st in
    ((st', NumberOfClients :: log), r)
}.


(** The answers to a sequence of command lines, and the ledger left. *)
Fixpoint serve {S : Type} `{Ledger S} (bank_ip : string) (lines : list string)
  (st : S) : S * list string :=
  match lines with
  | [] => (st, [])
  | line :: lines' =>
      let '(st1, response) := process_command bank_ip line st in
      let '(st2, responses) := serve bank_ip lines' st1 in
      (st2, response :: responses)
  end.

(** The number of tokens a verb of the command table takes. *)
Definition token_count (cmd : string) : option nat :=
  if bool_decide (cmd ∈ ["BC"; "AC"; "BA"; "BN"]) then Some 1%nat
  else if bool_decide (cmd ∈ ["AB"; "AR"]) then Some 2%nat
  else if bool_decide (cmd ∈ ["AD"; "AW"]) then Some 3%nat
  else None.

(** ** One command, at most one call

    [dispatch] makes at most one call to the ledger. [plan] computes from
    the tokens alone what a command comes to: an answer (or an exception)
    that needs no ledger, or the one call to make; [perform] makes the call
    and words the answer. [dispatch_plan] below shows that [dispatch] is
    the two put together. *)

Definition plan_account (bank_ip spec : string) (k : Z → outcome string + call)
  : outcome string + call :=
  match parse_account_spec spec with
  | Raise e => inl (Raise e)
  | Return (inr err) => inl (Return ("ER " +:+ err))
  | Return (inl (account_number, ip_part)) =>
      if decide (ip_part ≠ bank_ip) then inl (Return msg_bank_mismatch)
      else k account_number
  end.

Definition plan_amount (amount_str : string) (k : Z → call)
  : outcome string + call :=
  match parse_amount amount_str with
  | None => inl (Return msg_amount_format)
  | Some amount => inr (k amount)
  end.

Definition plan (bank_ip cmd : string) (tokens : list string)
  : outcome string + call :=
  match token_count cmd, tokens with
  | None, _ => inl (Return msg_unknown)
  | Some 1%nat, [_] =>
      if decide (cmd = "BC") then inl (Return ("BC " +:+ bank_ip))
      else if decide (cmd = "AC") then inr CreateAccount
      else if decide (cmd = "BA") then inr TotalAmount
      else inr NumberOfClients
  | Some 2%nat, [_; spec] =>
      plan_account bank_ip spec (λ n,
        inr (if decide (cmd = "AB") then GetBalance n else RemoveAccount n))
  | Some 3%nat, [_; spec; amount_str] =>
      plan_account bank_ip spec (λ n,
        plan_amount amount_str
          (if decide (cmd = "AD") then Deposit n else Withdraw n))
  | Some _, _ => inl (Return (msg_wrong_format cmd))
  end.

Section Perform.

Context {S : Type} `{Ledger S}.

Definition perform (bank_ip : string) (c : call) : action string :=
  match c with
  | CreateAccount =>
      bind ledger_create_account (λ '(account_number, err),
        ret (answer err
               ("AC " +:+ Py.str_opt account_number +:+ "/" +:+ bank_ip)))
  | Deposit n amount =>
      bind (ledger_deposit n amount) (λ err, ret (answer err "AD"))
  | Withdraw n amount =>
      bind (ledger_withdraw n amount) (λ err, ret (answer err "AW"))
  | GetBalance n =>
      bind (ledger_get_balance n) (λ balance,
        match balance with
        | None => ret "ER Bankovní účet neexistuje."
        | Some b => ret ("AB " +:+ Py.str b)
        end)
  | RemoveAccount n =>
      bind (ledger_remove_account n) (λ err, ret (answer err "AR"))
  | TotalAmount =>
      bind ledger_total_amount (λ total, ret ("BA " +:+ Py.str total))
  | NumberOfClients =>
      bind ledger_number_of_clients (λ count, ret ("BN " +:+ Py.str count))
  end.

Definition run_plan (bank_ip : string) (p : outcome string + call)
  : action string :=
  match p with
  | inl o => lift o
  | inr c => perform bank_ip c
  end.

End Perform.

(** ** Vocabulary of the protocol *)

Fixpoint has_newline (s : string) : bool :=
  match s with
  | EmptyString => false
  | String c r => Ascii.eqb c Py.LF || has_newline r
  end.

(** An error response is a line that begins with [ER ]. *)
Definition is_error (response : string) : bool := String.prefix "ER " response.




Fixpoint digits_only (s : string) : bool :=
  match s with
  | EmptyString => true
  | String c r => Py.is_digit c && digits_only r
  end.

Fixpoint no_space (s : string) : bool :=
  match s with
  | EmptyString => true
  | String c r => negb (Py.is_space c) && no_space r
  end.

Fixpoint decimal_from (acc : Z) (s : string) : Z :=
  match s with
  | EmptyString => acc
  | String c r => decimal_from (10 * acc + Py.digit_value c) r
  end.

(** The number a string of digits denotes in base ten. *)
Definition decimal (s : string) : Z := decimal_from 0 s.

(** One to three digits that denote a number up to 255. *)
Definition octet (s : string) : Prop :=
  digits_only s = true ∧ (1 ≤ String.length s ≤ 3)%nat ∧ decimal s ≤ 255.

(** Four octets with dots between them. *)
Definition dotted_quad (ip : string) : Prop :=
  ∃ a b c d, ip = a +:+ "." +:+ b +:+ "." +:+ c +:+ "." +:+ d
    ∧ octet a ∧ octet b ∧ octet c ∧ octet d.



(** The successful answers of the command table. *)
Definition success_response (bank_ip response : string) : Prop :=
  response = "BC " +:+ bank_ip
  ∨ (∃ n, response = "AC " +:+ Py.str n +:+ "/" +:+ bank_ip)
  ∨ response = "AD" ∨ response = "AW"
  ∨ (∃ b, response = "AB " +:+ Py.str b)
  ∨ response = "AR"
  ∨ (∃ t, response = "BA " +:+ Py.str t)
  ∨ (∃ c, response = "BN " +:+ Py.str c).


(** ** More vocabulary for ledger calls *)

(** The account a call is about; for [create_account] the one it opens
    when there is room. *)
Definition call_account (c : call) (st : BankData) : option Z :=
  match c with
  | CreateAccount => Some (last_account st + 1)
  | Deposit n _ | Withdraw n _ | GetBalance n | RemoveAccount n => Some n
  | TotalAmount | NumberOfClients => None
  end.

(** The amount a call moves into the bank when it reports no error. *)
Definition call_amount (c : call) : Z :=
  match c with
  | Deposit _ amount => amount
  | Withdraw _ amount => - amount
  | _ => 0
  end.


(** The money moved into the bank by the calls [cs] that report no error. *)
Fixpoint moved (cs : list call) (st : BankData) : Z :=
  match cs with
  | [] => 0
  | c :: cs' =>
      (match call_error c st with
       | None => call_amount c
       | Some _ => 0
       end) + moved cs' (call_step c st)
  end.

(** The account number of a call lies between 10000 and 99999. *)
Definition account_in_range (c : call) : Prop :=
  match c with
  | Deposit n _ | Withdraw n _ | GetBalance n | RemoveAccount n =>
      10000 ≤ n ≤ 99999
  | CreateAccount | TotalAmount | NumberOfClients => True
  end.

(** ** The connection: [BankRequestHandler.handle] *)

(** One turn of the loop of [handle], as far as the reading goes:
    [readline] returns bytes, which are text ([Some]) or not UTF-8
    ([None]); or the read times out; or it raises something else. Bytes
    that are empty are the end of the stream. *)
Inductive received : Type :=
| Data (text : option string)
| TimedOut
| Failed.

(** [handle]: the frames written to [wfile], oldest first, and the ledger
    left, for the reads [reads] of the connection. Every exit of the loop
    is a [break], so it ends the frames; after the last read described
    nothing more is taken from the connection. Writing does not fail. *)
Fixpoint handle {S : Type} `{Ledger S} (bank_ip : string) (reads : list received)
  (st : S) : S * list string :=
  match reads with
  | [] => (st, [])
  | Data (Some data) :: rest =>
      match data with
      | EmptyString => (st, [])
      | _ =>
          match Py.strip data with
          | EmptyString => handle bank_ip rest st
          | command_line =>
              let '(st1, response) := process_command bank_ip command_line st in
              let '(st2, frames) := handle bank_ip rest st1 in
              (st2, (response +:+ String Py.LF EmptyString) :: frames)
          end
      end
  | Data None :: _ => (st, [])
  | TimedOut :: _ => (st, [])
  | Failed :: _ => (st, [])
  end.


(** The command lines of a connection: the texts read before the loop
    ends, stripped, without the blank ones. *)
Fixpoint commands (reads : list received) : list string :=
  match reads with
  | Data (Some data) :: rest =>
      match data with
      | EmptyString => []
      | _ =>
          match Py.strip data with
          | EmptyString => commands rest
          | command_line => command_line :: commands rest
          end
      end
  | _ => []
  end.

(** ** Startup: [main] *)




(** * Properties *)

(** ** Regular expressions: the matcher finds the words of the pattern *)

Section Regex.

Import Re.

Implicit Types (r : regex) (s t : string) (c : ascii).

Lemma append_cons c s t : String c s +:+ t = String c (s +:+ t).
Proof. done. Qed.

Lemma append_nil_l s : EmptyString +:+ s = s.
Proof. done. Qed.

Lemma append_nil_r s : s +:+ EmptyString = s.
Proof. induction s as [|c s IH]; [done|]. by rewrite append_cons, IH. Qed.

Lemma append_assoc s t u : (s +:+ t) +:+ u = s +:+ (t +:+ u).
Proof. induction s as [|c s IH]; [done|]. by rewrite !append_cons, IH. Qed.

Lemma append_eq_nil s t : s +:+ t = EmptyString → s = EmptyString ∧ t = EmptyString.
Proof. by destruct s. Qed.

Lemma nullable_lang r : nullable r = true ↔ lang r EmptyString.
Proof.
  induction r as [| |p|r1 IH1 r2 IH2|r1 IH1 r2 IH2]; simpl.
  - done.
  - done.
  - split; [done|]. by intros (c & _ & [=]).
  - rewrite andb_true_iff, IH1, IH2. split.
    + intros [H1 H2]. by exists EmptyString, EmptyString.
    + intros (s1 & s2 & [-> ->]%eq_sym%append_eq_nil & H1 & H2). done.
  - by rewrite orb_true_iff, IH1, IH2.
Qed.

Lemma deriv_lang c r s : lang (deriv c r) s ↔ lang r (String c s).
Proof.
  revert s. induction r as [| |p|r1 IH1 r2 IH2|r1 IH1 r2 IH2]; intros s; simpl.
  - done.
  - done.
  - destruct (p c) eqn:Hp; simpl.
    + split; [intros ->; by exists c|]. by intros (c' & _ & [= _ ->]).
    + split; [done|]. intros (c' & Hp' & [= <- _]). congruence.
  - assert ((∃ s1 s2, s = s1 +:+ s2 ∧ lang (deriv c r1) s1 ∧ lang r2 s2)
            ∨ (lang r1 EmptyString ∧ lang r2 (String c s))
            ↔ ∃ s1 s2, String c s = s1 +:+ s2 ∧ lang r1 s1 ∧ lang r2 s2) as Hcat.
    { split.
      - intros [(s1 & s2 & -> & H1 & H2)|[H1 H2]].
        + exists (String c s1), s2. by rewrite <-IH1.
        + by exists EmptyString, (String c s).
      - intros (s1 & s2 & Heq & H1 & H2). destruct s1 as [|c' s1].
        + rewrite append_nil_l in Heq. right. by subst s2.
        + rewrite append_cons in Heq. injection Heq as <- ->. left. exists s1, s2. by rewrite IH1. }
    rewrite <-Hcat. destruct (nullable r1) eqn:Hn; simpl.
    + rewrite IH2. apply nullable_lang in Hn. tauto.
    + split; [tauto|]. intros [?|[Hn'%nullable_lang _]]; [done|congruence].
  - by rewrite IH1, IH2.
Qed.

Lemma accepts_lang r s : accepts r s = true ↔ lang r s.
Proof.
  revert r. induction s as [|c s IH]; intros r; simpl.
  - apply nullable_lang.
  - by rewrite IH, deriv_lang.
Qed.

End Regex.

Section Addresses.

Import Re.

Implicit Types (s t o ip : string).

Lemma octet_pattern_lang o :
  lang octet_pattern o ↔ digits_only o = true ∧ (1 ≤ String.length o ≤ 3)%nat.
Proof.
  unfold octet_pattern, between. simpl. split.
  - intros (s1 & s2 & -> & (s3 & s4 & -> & (c1 & Hc1 & ->) & ->) & Hrest).
    destruct Hrest as [->|(s5 & s6 & -> & (c2 & Hc2 & ->) & Hrest)].
    { cbv [String.append]. simpl. rewrite Hc1. split; [done|lia]. }
    destruct Hrest as [->|(s7 & s8 & -> & (c3 & Hc3 & ->) & ->)].
    { cbv [String.append]. simpl. rewrite Hc1, Hc2. split; [done|lia]. }
    cbv [String.append]. simpl. rewrite Hc1, Hc2, Hc3. split; [done|lia].
  - intros [Hd Hlen].
    destruct o as [|c1 [|c2 [|c3 [|c4 o]]]]; simpl in Hd, Hlen; try lia.
    + apply andb_true_iff in Hd as [Hc1 _].
      exists (String c1 EmptyString), EmptyString. split; [done|]. split; [|by left].
      exists (String c1 EmptyString), EmptyString. split; [done|]. split; [by exists c1|done].
    + apply andb_true_iff in Hd as [Hc1 [Hc2 _]%andb_true_iff].
      exists (String c1 EmptyString), (String c2 EmptyString). split; [done|]. split.
      * exists (String c1 EmptyString), EmptyString. split; [done|]. split; [by exists c1|done].
      * right. exists (String c2 EmptyString), EmptyString. split; [done|].
        split; [by exists c2|by left].
    + apply andb_true_iff in Hd as [Hc1 [Hc2 [Hc3 _]%andb_true_iff]%andb_true_iff].
      exists (String c1 EmptyString), (String c2 (String c3 EmptyString)). split; [done|]. split.
      * exists (String c1 EmptyString), EmptyString. split; [done|]. split; [by exists c1|done].
      * right. exists (String c2 EmptyString), (String c3 EmptyString). split; [done|].
        split; [by exists c2|]. right.
        exists (String c3 EmptyString), EmptyString. split; [done|]. split; [by exists c3|done].
Qed.

Lemma ip_pattern_lang ip :
  lang ip_pattern ip ↔
  ∃ a b c d : string, ip = a +:+ "." +:+ b +:+ "." +:+ c +:+ "." +:+ d
    ∧ lang octet_pattern a ∧ lang octet_pattern b
    ∧ lang octet_pattern c ∧ lang octet_pattern d.
Proof.
  unfold ip_pattern. cbn [times lang]. split.
  - intros (a & r1 & -> & Ha & (x1 & r2 & -> & (p1 & b & -> & (c1 & Hc1 & ->) & Hb)
      & (x2 & r3 & -> & (p2 & c & -> & (c2 & Hc2 & ->) & Hc)
      & (x3 & r4 & -> & (p3 & d & -> & (c3 & Hc3 & ->) & Hd) & ->)))).
    apply Ascii.eqb_eq in Hc1, Hc2, Hc3. subst c1 c2 c3.
    exists a, b, c, d. split; [|done].
    by rewrite append_nil_r, !append_assoc.
  - intros (a & b & c & d & -> & Ha & Hb & Hc & Hd).
    exists a, ("." +:+ b +:+ "." +:+ c +:+ "." +:+ d). split; [done|].
    split; [done|].
    exists ("." +:+ b), ("." +:+ c +:+ "." +:+ d). split; [done|]. split.
    { exists ".", b. split; [done|]. split; [by exists "."%char|done]. }
    exists ("." +:+ c), ("." +:+ d). split; [done|]. split.
    { exists ".", c. split; [done|]. split; [by exists "."%char|done]. }
    exists ("." +:+ d), EmptyString. split; [by rewrite append_nil_r|]. split; [|done].
    exists ".", d. split; [done|]. split; [by exists "."%char|done].
Qed.

End Addresses.

Section Numerals.

Implicit Types (s t : string) (c : ascii) (acc : Z).

Lemma digit_not_space c : Py.is_digit c = true → Py.is_space c = false.
Proof. by destruct c as [[] [] [] [] [] [] [] []]. Qed.

Lemma digit_not_dot c : Py.is_digit c = true → Ascii.eqb c "." = false.
Proof. by destruct c as [[] [] [] [] [] [] [] []]. Qed.

Lemma digit_value_range c : Py.is_digit c = true → 0 ≤ Py.digit_value c ≤ 9.
Proof. destruct c as [[] [] [] [] [] [] [] []]; try done; by compute. Qed.

Lemma digits_no_space s : digits_only s = true → no_space s = true.
Proof.
  induction s as [|c s IH]; simpl; [done|].
  intros [Hc Hs]%andb_true_iff. by rewrite (digit_not_space c Hc), IH.
Qed.

Lemma rstrip_no_space s : no_space s = true → Py.rstrip s = s.
Proof.
  induction s as [|c s IH]; simpl; [done|].
  intros [Hc Hs]%andb_true_iff. rewrite (IH Hs).
  destruct s; [|done]. by destruct (Py.is_space c).
Qed.

Lemma lstrip_no_space s : no_space s = true → Py.lstrip s = s.
Proof.
  destruct s as [|c s]; simpl; [done|].
  intros [Hc _]%andb_true_iff. by destruct (Py.is_space c).
Qed.

Lemma strip_no_space s : no_space s = true → Py.strip s = s.
Proof.
  intros Hs. unfold Py.strip. by rewrite rstrip_no_space, lstrip_no_space.
Qed.

Lemma int_digits_decimal acc (prev : bool) s :
  digits_only s = true → s ≠ EmptyString ∨ prev = true →
  Py.int_digits acc prev s = Some (decimal_from acc s).
Proof.
  revert acc prev. induction s as [|c s IH]; intros acc prev Hd Hne; simpl.
  - by destruct Hne as [?| ->].
  - simpl in Hd. apply andb_true_iff in Hd as [Hc Hs]. rewrite Hc.
    apply IH; [done|by right].
Qed.

Lemma int_digits_only s :
  digits_only s = true → s ≠ EmptyString → Py.int s = Some (decimal s).
Proof.
  intros Hd Hne. unfold Py.int.
  rewrite (strip_no_space s (digits_no_space s Hd)).
  destruct s as [|c s]; [done|].
  assert (Py.int_digits 0 false (String c s) = Some (decimal (String c s))) as Hint.
  { apply int_digits_decimal; [done|by left]. }
  simpl in Hd. apply andb_true_iff in Hd as [Hc _].
  by destruct c as [[] [] [] [] [] [] [] []].
Qed.

Lemma decimal_from_nonneg acc s :
  digits_only s = true → 0 ≤ acc → 0 ≤ decimal_from acc s.
Proof.
  revert acc. induction s as [|c s IH]; intros acc Hd Hacc; simpl; [done|].
  simpl in Hd. apply andb_true_iff in Hd as [Hc Hs].
  apply IH; [done|]. pose proof (digit_value_range c Hc). lia.
Qed.

Lemma split_on_digits_dot s t :
  digits_only s = true →
  Py.split_on "." (s +:+ String "." t) = s :: Py.split_on "." t.
Proof.
  unfold Py.split_on. intros Hd.
  assert (Py.split_on_go "." (s +:+ String "." t)
          = (s, (Py.split_on_go "." t).1 :: (Py.split_on_go "." t).2)) as ->.
  { induction s as [|c s IH].
    - rewrite append_nil_l. simpl. by destruct (Py.split_on_go "." t).
    - simpl in Hd. apply andb_true_iff in Hd as [Hc Hs].
      rewrite append_cons. simpl. rewrite (IH Hs), (digit_not_dot c Hc). done. }
  by destruct (Py.split_on_go "." t).
Qed.

Lemma no_space_has_newline s : no_space s = true → has_newline s = false.
Proof.
  induction s as [|c s IH]; simpl; [done|].
  intros [Hc Hs]%andb_true_iff. rewrite (IH Hs), orb_false_r.
  destruct (Ascii.eqb_spec c Py.LF) as [->|]; [done|done].
Qed.




End Numerals.

Section ValidIp.

Import Re.

Implicit Types (s t ip : string).

Lemma octet_lang_int s :
  lang octet_pattern s →
  digits_only s = true ∧ (1 ≤ String.length s ≤ 3)%nat
  ∧ Py.int s = Some (decimal s) ∧ 0 ≤ decimal s.
Proof.
  intros [Hd Hlen]%octet_pattern_lang. split; [done|]. split; [done|]. split.
  - apply int_digits_only; [done|]. intros ->. simpl in Hlen. lia.
  - by apply decimal_from_nonneg.
Qed.

Lemma split_on_digits s : digits_only s = true → Py.split_on "." s = [s].
Proof.
  unfold Py.split_on. intros Hd.
  assert (Py.split_on_go "." s = (s, [])) as ->; [|done].
  induction s as [|c s IH]; simpl; [done|].
  simpl in Hd. apply andb_true_iff in Hd as [Hc Hs].
  by rewrite (IH Hs), (digit_not_dot c Hc).
Qed.

Lemma split_on_quad (a b c d : string) :
  digits_only a = true → digits_only b = true →
  digits_only c = true → digits_only d = true →
  Py.split_on "." (a +:+ "." +:+ b +:+ "." +:+ c +:+ "." +:+ d) = [a; b; c; d].
Proof.
  intros Ha Hb Hc Hd.
  assert (∀ x, "." +:+ x = String "." x) as Hdot by done.
  by rewrite !Hdot, !split_on_digits_dot, split_on_digits.
Qed.

Lemma all_octets_quad (a b c d : string) :
  lang octet_pattern a → lang octet_pattern b →
  lang octet_pattern c → lang octet_pattern d →
  all_octets [a; b; c; d]
  = Return (bool_decide (decimal a ≤ 255 ∧ decimal b ≤ 255
                         ∧ decimal c ≤ 255 ∧ decimal d ≤ 255)).
Proof.
  intros (_ & _ & Ha & Ha')%octet_lang_int (_ & _ & Hb & Hb')%octet_lang_int
    (_ & _ & Hc & Hc')%octet_lang_int (_ & _ & Hd & Hd')%octet_lang_int.
  simpl. rewrite Ha, Hb, Hc, Hd.
  repeat case_bool_decide; try done; lia.
Qed.

Lemma chop_newline_has_newline s t :
  chop_newline s = Some t → has_newline s = true.
Proof.
  revert t. induction s as [|c s IH]; intros t; simpl; [done|].
  destruct s as [|c' s'].
  - destruct (Ascii.eqb c Py.LF); [done|done].
  - destruct (chop_newline (String c' s')) as [t'|] eqn:Ht; [|done].
    intros _. rewrite (IH t' eq_refl). apply orb_true_r.
Qed.

(** On a string without line feed, [is_valid_ip] holds of the dotted quads
    and of nothing else. *)
Lemma is_valid_ip_dotted_quad ip :
  has_newline ip = false → is_valid_ip ip = Return true ↔ dotted_quad ip.
Proof.
  intros Hnl. unfold is_valid_ip, match_whole, dotted_quad. split.
  - destruct (chop_newline ip) as [t|] eqn:Hchop.
    { apply chop_newline_has_newline in Hchop. congruence. }
    rewrite orb_false_r.
    destruct (accepts ip_pattern ip) eqn:Hacc; [|done].
    apply accepts_lang, ip_pattern_lang in Hacc
      as (a & b & c & d & -> & Ha & Hb & Hc & Hd).
    pose proof (octet_lang_int a Ha) as (Ha1 & Ha2 & _).
    pose proof (octet_lang_int b Hb) as (Hb1 & Hb2 & _).
    pose proof (octet_lang_int c Hc) as (Hc1 & Hc2 & _).
    pose proof (octet_lang_int d Hd) as (Hd1 & Hd2 & _).
    rewrite split_on_quad, all_octets_quad by done.
    case_bool_decide as Hv; [|done]. intros _.
    destruct Hv as (Hva & Hvb & Hvc & Hvd).
    exists a, b, c, d. unfold octet. tauto.
  - intros (a & b & c & d & -> & (Ha1 & Ha2 & Ha3) & (Hb1 & Hb2 & Hb3)
            & (Hc1 & Hc2 & Hc3) & (Hd1 & Hd2 & Hd3)).
    assert (lang octet_pattern a) as Ha by by apply octet_pattern_lang.
    assert (lang octet_pattern b) as Hb by by apply octet_pattern_lang.
    assert (lang octet_pattern c) as Hc by by apply octet_pattern_lang.
    assert (lang octet_pattern d) as Hd by by apply octet_pattern_lang.
    assert (accepts ip_pattern (a +:+ "." +:+ b +:+ "." +:+ c +:+ "." +:+ d)
            = true) as ->.
    { apply accepts_lang, ip_pattern_lang. by exists a, b, c, d. }
    rewrite orb_true_l, split_on_quad, all_octets_quad by done.
    by rewrite bool_decide_eq_true_2.
Qed.


Lemma chop_newline_app s t :
  chop_newline s = Some t → s = t +:+ String Py.LF EmptyString.
Proof.
  revert t. induction s as [|c s IH]; intros t; simpl; [done|].
  destruct s as [|c' s'].
  - destruct (Ascii.eqb_spec c Py.LF) as [->|]; [|done]. by intros [= <-].
  - destruct (chop_newline (String c' s')) as [t'|] eqn:Ht; [|done].
    intros [= <-]. by rewrite append_cons, <-(IH t' eq_refl).
Qed.

Lemma rstrip_digits_newline s :
  digits_only s = true → Py.rstrip (s +:+ String Py.LF EmptyString) = s.
Proof.
  induction s as [|c s IH]; [done|].
  intros [Hc Hs]%andb_true_iff. rewrite append_cons. simpl. rewrite (IH Hs).
  destruct s; [|done]. by rewrite (digit_not_space c Hc).
Qed.

Lemma int_digits_newline s :
  digits_only s = true → s ≠ EmptyString →
  Py.int (s +:+ String Py.LF EmptyString) = Some (decimal s).
Proof.
  intros Hd Hne. rewrite <-(int_digits_only s Hd Hne). unfold Py.int, Py.strip.
  by rewrite rstrip_digits_newline, (rstrip_no_space s (digits_no_space s Hd)).
Qed.

Lemma split_on_digits_newline s :
  digits_only s = true →
  Py.split_on "." (s +:+ String Py.LF EmptyString) = [s +:+ String Py.LF EmptyString].
Proof.
  unfold Py.split_on. intros Hd.
  assert (Py.split_on_go "." (s +:+ String Py.LF EmptyString)
          = (s +:+ String Py.LF EmptyString, [])) as ->; [|done].
  induction s as [|c s IH]; [done|].
  simpl in Hd. apply andb_true_iff in Hd as [Hc Hs].
  rewrite append_cons. simpl. by rewrite (IH Hs), (digit_not_dot c Hc).
Qed.

Lemma all_octets_returns (parts : list string) :
  Forall (λ part, is_Some (Py.int part)) parts →
  ∃ b, all_octets parts = Return b.
Proof.
  induction 1 as [|part parts [v Hv] _ IH]; simpl; [by eexists|].
  rewrite Hv. case_bool_decide; [done|by eexists].
Qed.

(** [is_valid_ip] does not raise: what the pattern lets through, [int]
    can read. *)
Lemma is_valid_ip_returns ip : ∃ b, is_valid_ip ip = Return b.
Proof.
  unfold is_valid_ip, match_whole.
  destruct (accepts ip_pattern ip) eqn:Hacc; simpl.
  - apply accepts_lang, ip_pattern_lang in Hacc
      as (a & b & c & d & -> & Ha & Hb & Hc & Hd).
    pose proof (octet_lang_int a Ha) as (Ha1 & _).
    pose proof (octet_lang_int b Hb) as (Hb1 & _).
    pose proof (octet_lang_int c Hc) as (Hc1 & _).
    pose proof (octet_lang_int d Hd) as (Hd1 & _).
    rewrite split_on_quad, all_octets_quad by done. by eexists.
  - destruct (chop_newline ip) as [t|] eqn:Hchop; [|by eexists].
    destruct (accepts ip_pattern t) eqn:Hacc'; [|by eexists].
    apply chop_newline_app in Hchop as ->.
    apply accepts_lang, ip_pattern_lang in Hacc'
      as (a & b & c & d & -> & Ha & Hb & Hc & Hd).
    pose proof (octet_lang_int a Ha) as (Ha1 & _ & Ha3 & _).
    pose proof (octet_lang_int b Hb) as (Hb1 & _ & Hb3 & _).
    pose proof (octet_lang_int c Hc) as (Hc1 & _ & Hc3 & _).
    pose proof (octet_lang_int d Hd) as (Hd1 & Hd2 & _).
    assert (∀ x, "." +:+ x = String "." x) as Hdot by done.
    rewrite !append_assoc, !Hdot, !split_on_digits_dot,
      split_on_digits_newline by done.
    apply all_octets_returns. repeat constructor; try by eexists.
    rewrite int_digits_newline; [by eexists|done|].
    intros ->. simpl in Hd2. lia.
Qed.

Lemma parse_account_spec_returns (spec : string) :
  ∃ r, parse_account_spec spec = Return r.
Proof.
  unfold parse_account_spec.
  destruct (Py.split_on "/" spec) as [|account_str [|ip [|extra parts]]];
    try by eexists.
  destruct (Py.int account_str); [|by eexists].
  case_decide; [by eexists|].
  destruct (is_valid_ip_returns ip) as [[|] ->]; by eexists.
Qed.

End ValidIp.

(** ** The ledger, one call at a time *)

Section LedgerCalls.

Implicit Types (st : BankData) (n amount balance : Z).

Lemma str_inj n m : Py.str n = Py.str m → n = m.
Proof. unfold Py.str. apply (inj pretty). Qed.

Lemma deposit_absent st n amount :
  get_balance n st = None → deposit n amount st = (st, Some msg_no_account).
Proof. unfold get_balance, deposit. by intros ->. Qed.

Lemma deposit_present st n amount balance :
  get_balance n st = Some balance →
  deposit n amount st
  = (save (mkBankData (last_account st)
             (<[Py.str n := balance + amount]> (accounts st)) (data_file st)),
     None).
Proof. unfold get_balance, deposit. by intros ->. Qed.

Lemma withdraw_absent st n amount :
  get_balance n st = None → withdraw n amount st = (st, Some msg_no_account).
Proof. unfold get_balance, withdraw. by intros ->. Qed.

Lemma withdraw_refused st n amount balance :
  get_balance n st = Some balance → balance < amount →
  withdraw n amount st = (st, Some msg_insufficient).
Proof.
  unfold get_balance, withdraw. intros -> Hlt. by rewrite decide_True.
Qed.

Lemma withdraw_granted st n amount balance :
  get_balance n st = Some balance → amount ≤ balance →
  withdraw n amount st
  = (save (mkBankData (last_account st)
             (<[Py.str n := balance - amount]> (accounts st)) (data_file st)),
     None).
Proof.
  unfold get_balance, withdraw. intros -> Hle. rewrite decide_False; [done | lia].
Qed.

Lemma remove_absent st n :
  get_balance n st = None → remove_account n st = (st, Some msg_no_account).
Proof. unfold get_balance, remove_account. by intros ->. Qed.

Lemma remove_refused st n balance :
  get_balance n st = Some balance → balance ≠ 0 →
  remove_account n st = (st, Some msg_nonzero).
Proof.
  unfold get_balance, remove_account. intros -> Hne. by rewrite decide_True.
Qed.

Lemma remove_granted st n :
  get_balance n st = Some 0 →
  remove_account n st
  = (save (mkBankData (last_account st)
             (delete (Py.str n) (accounts st)) (data_file st)),
     None).
Proof. unfold get_balance, remove_account. by intros ->. Qed.

Lemma create_full st :
  last_account st >= 99999 →
  create_account st = (st, (None, Some msg_capacity)).
Proof. intros Hge. unfold create_account. by rewrite decide_True. Qed.

Lemma create_room st :
  last_account st < 99999 →
  create_account st
  = (save (mkBankData (last_account st + 1)
             (<[Py.str (last_account st + 1) := 0]> (accounts st))
             (data_file st)),
     (Some (last_account st + 1), None)).
Proof. intros Hlt. unfold create_account. rewrite decide_False; [done | lia]. Qed.

Lemma get_balance_save n st : get_balance n (save st) = get_balance n st.
Proof. done. Qed.

End LedgerCalls.

(** C3. For an existing account and an amount that is not negative,
    [deposit] reports no error and [get_balance] called right after it
    returns the former balance plus the amount; for an account that does
    not exist, [deposit] reports that the account does not exist and
    leaves the ledger as it was. *)
Theorem deposit_then_balance (st : BankData) (n amount : Z) :
  0 ≤ amount →
  match get_balance n st with
  | Some balance =>
      (deposit n amount st).2 = None
      ∧ get_balance n (deposit n amount st).1 = Some (balance + amount)
  | None => deposit n amount st = (st, Some msg_no_account)
  end.
Proof.
  intros _. destruct (get_balance n st) as [balance|] eqn:Hb.
  - rewrite (deposit_present _ _ _ _ Hb). split; [done|].
    unfold get_balance; simpl. apply lookup_insert_eq.
  - by apply deposit_absent.
Qed.

Lemma deposit_then_balance_witness :
  let st := (create_account fresh_ledger).1 in
  get_balance 10000 st = Some 0
  ∧ (deposit 10000 500 st).2 = None
  ∧ get_balance 10000 (deposit 10000 500 st).1 = Some 500.
Proof.
  intros st. split; [reflexivity|].
  assert (H500 : 0 ≤ 500) by lia.
  exact (deposit_then_balance st 10000 500 H500).
Defined.

(** C9. A call of [create_account], [deposit], [withdraw] or
    [remove_account] that reports an error leaves the whole ledger as it
    was: the counter, the accounts with their balances, and the file, to
    which nothing is written. The error is one of the four messages. *)
Theorem error_leaves_ledger (c : call) (st : BankData) (e : string) :
  call_error c st = Some e →
  call_step c st = st
  ∧ data_file (call_step c st) = data_file st
  ∧ e ∈ [msg_capacity; msg_no_account; msg_insufficient; msg_nonzero].
Proof.
  intros He.
  assert (call_step c st = st ∧
          e ∈ [msg_capacity; msg_no_account; msg_insufficient; msg_nonzero])
    as [Hst Hmsg]; [|by rewrite Hst].
  destruct c as [|n amount|n amount|n|n| |]; simpl in *; try discriminate.
  - unfold create_account in *. case_decide; simpl in *; [|discriminate].
    split; [done|]. injection He as <-. set_solver.
  - unfold deposit in *. destruct (accounts st !! Py.str n); simpl in *;
      [discriminate|]. split; [done|]. injection He as <-. set_solver.
  - unfold withdraw in *. destruct (accounts st !! Py.str n); simpl in *.
    + case_decide; simpl in *; [|discriminate].
      split; [done|]. injection He as <-. set_solver.
    + split; [done|]. injection He as <-. set_solver.
  - unfold remove_account in *. destruct (accounts st !! Py.str n); simpl in *.
    + case_decide; simpl in *; [|discriminate].
      split; [done|]. injection He as <-. set_solver.
    + split; [done|]. injection He as <-. set_solver.
Qed.

Lemma error_leaves_ledger_witness :
  let st := (deposit 10000 500 (create_account fresh_ledger).1).1 in
  call_error (Withdraw 10000 600) st = Some msg_insufficient
  ∧ call_step (Withdraw 10000 600) st = st.
Proof.
  intros st.
  assert (He : call_error (Withdraw 10000 600) st = Some msg_insufficient)
    by reflexivity.
  split; [exact He|].
  exact (proj1 (error_leaves_ledger (Withdraw 10000 600) st msg_insufficient He)).
Defined.

(** ** Ledgers built by calls on a new ledger *)

Section Histories.

Implicit Types (st : BankData) (c : call) (cs : list call) (n : Z).

Lemma inv_fresh : ledger_inv fresh_ledger.
Proof. split; simpl; [lia|]. intros key balance. by rewrite lookup_empty. Qed.

Lemma counter_step c st : last_account st ≤ last_account (call_step c st).
Proof.
  destruct c as [|n amount|n amount|n|n| |]; simpl; try lia.
  - unfold create_account. case_decide; simpl; lia.
  - unfold deposit. destruct (accounts st !! Py.str n); simpl; lia.
  - unfold withdraw. destruct (accounts st !! Py.str n); simpl; [|lia].
    case_decide; simpl; lia.
  - unfold remove_account. destruct (accounts st !! Py.str n); simpl; [|lia].
    case_decide; simpl; lia.
Qed.

Lemma counter_run cs st : last_account st ≤ last_account (run cs st).
Proof.
  revert st. induction cs as [|c cs IH]; intros st; simpl; [lia|].
  etrans; [apply (counter_step c)|apply IH].
Qed.

Lemma inv_step c st : ledger_inv st → ledger_inv (call_step c st).
Proof.
  intros [Hc Hk].
  destruct c as [|n amount|n amount|n|n| |]; simpl; try done.
  - unfold create_account. case_decide; simpl; [done|].
    split; simpl; [lia|]. intros key balance.
    rewrite lookup_insert. case_decide as Hkey.
    + intros _. exists (last_account st + 1). split; [done|lia].
    + intros [m [-> ?]]%Hk. exists m. split; [done|lia].
  - unfold deposit. destruct (accounts st !! Py.str n) eqn:Hn; simpl; [|done].
    split; simpl; [done|]. intros key balance.
    rewrite lookup_insert. case_decide as Hkey; [|by apply Hk].
    intros _. subst key. by apply (Hk _ _ Hn).
  - unfold withdraw. destruct (accounts st !! Py.str n) eqn:Hn; simpl; [|done].
    case_decide; simpl; [done|].
    split; simpl; [done|]. intros key balance.
    rewrite lookup_insert. case_decide as Hkey; [|by apply Hk].
    intros _. subst key. by apply (Hk _ _ Hn).
  - unfold remove_account. destruct (accounts st !! Py.str n) eqn:Hn; simpl; [|done].
    case_decide; simpl; [done|].
    split; simpl; [done|]. intros key balance.
    rewrite lookup_delete. case_decide; [done|by apply Hk].
Qed.

Lemma inv_run cs st : ledger_inv st → ledger_inv (run cs st).
Proof.
  revert st. induction cs as [|c cs IH]; intros st Hinv; simpl; [done|].
  by apply IH, inv_step.
Qed.

Lemma nonneg_fresh : balances_nonneg fresh_ledger.
Proof. intros key balance. simpl. by rewrite lookup_empty. Qed.

Lemma nonneg_step c st :
  amount_ok c → balances_nonneg st → balances_nonneg (call_step c st).
Proof.
  intros Hok Hst.
  destruct c as [|n amount|n amount|n|n| |]; simpl in *; try done.
  - unfold create_account. case_decide; simpl; [done|].
    intros key balance; simpl. rewrite lookup_insert. case_decide.
    + intros [= <-]. lia.
    + apply Hst.
  - unfold deposit. destruct (accounts st !! Py.str n) as [b|] eqn:Hn; simpl;
      [|done].
    intros key balance; simpl. rewrite lookup_insert. case_decide; [|apply Hst].
    intros [= <-]. specialize (Hst _ _ Hn). lia.
  - unfold withdraw. destruct (accounts st !! Py.str n) as [b|] eqn:Hn; simpl;
      [|done].
    case_decide; simpl; [done|].
    intros key balance; simpl. rewrite lookup_insert. case_decide; [|apply Hst].
    intros [= <-]. lia.
  - unfold remove_account.
    destruct (accounts st !! Py.str n) as [b|] eqn:Hn; simpl; [|done].
    case_decide; simpl; [done|].
    intros key balance; simpl. rewrite lookup_delete. case_decide; [done|apply Hst].
Qed.

Lemma nonneg_run cs st :
  Forall amount_ok cs → balances_nonneg st → balances_nonneg (run cs st).
Proof.
  revert st. induction cs as [|c cs IH]; intros st Hok Hst; simpl; [done|].
  inversion Hok; subst. by apply IH, nonneg_step.
Qed.

(** A number handed out lies above the counter at the time of the
    call, which it then becomes. *)
Lemma issued_step c st n :
  call_issued c st = Some n →
  n = last_account st + 1 ∧ last_account (call_step c st) = n ∧ n ≤ 99999.
Proof.
  destruct c; simpl; try discriminate.
  unfold create_account. case_decide; simpl; [discriminate|].
  intros [= <-]. lia.
Qed.

Lemma issued_above cs st :
  Forall (λ n, last_account st < n ≤ 99999) (issued cs st).
Proof.
  revert st. induction cs as [|c cs IH]; intros st; simpl; [constructor|].
  pose proof (counter_step c st) as Hmono.
  pose proof (IH (call_step c st)) as Hrest.
  assert (Forall (λ n, last_account st < n ≤ 99999) (issued cs (call_step c st)))
    as Hrest'.
  { eapply Forall_impl; [exact Hrest|]. simpl. intros; lia. }
  destruct (call_issued c st) as [n|] eqn:Hn; [|done].
  constructor; [|done].
  apply issued_step in Hn. lia.
Qed.

Lemma issued_sorted cs st : StronglySorted Z.lt (issued cs st).
Proof.
  revert st. induction cs as [|c cs IH]; intros st; simpl; [constructor|].
  destruct (call_issued c st) as [n|] eqn:Hn; [|apply IH].
  constructor; [apply IH|].
  apply issued_step in Hn as (_ & Hlast & _).
  eapply Forall_impl; [apply issued_above|]. simpl. intros; lia.
Qed.

Lemma sorted_NoDup (l : list Z) : StronglySorted Z.lt l → NoDup l.
Proof.
  induction 1 as [|x l _ IH Hx]; constructor; [|done].
  intros Hin. rewrite Forall_forall in Hx. specialize (Hx _ Hin). lia.
Qed.

(** An account number at or below the counter that has no account
    stays without one, and is not handed out again. *)
Lemma gone_step c st n :
  n ≤ last_account st → get_balance n st = None →
  get_balance n (call_step c st) = None ∧ call_issued c st ≠ Some n.
Proof.
  unfold get_balance. intros Hle Hnone.
  destruct c as [|m amount|m amount|m|m| |]; simpl; try done.
  - unfold create_account. case_decide; simpl; [done|].
    split; [|intros [=]; lia].
    rewrite lookup_insert_ne; [done|]. intros ?%str_inj. lia.
  - split; [|done]. unfold deposit.
    destruct (accounts st !! Py.str m) eqn:Hm; simpl; [|done].
    rewrite lookup_insert_ne; [done|congruence].
  - split; [|done]. unfold withdraw.
    destruct (accounts st !! Py.str m) eqn:Hm; simpl; [|done].
    case_decide; simpl; [done|].
    rewrite lookup_insert_ne; [done|congruence].
  - split; [|done]. unfold remove_account.
    destruct (accounts st !! Py.str m) eqn:Hm; simpl; [|done].
    case_decide; simpl; [done|].
    rewrite lookup_delete_ne; [done|congruence].
Qed.

Lemma gone_forever cs st n :
  n ≤ last_account st → get_balance n st = None →
  get_balance n (run cs st) = None ∧ n ∉ issued cs st.
Proof.
  revert st. induction cs as [|c cs IH]; intros st Hle Hnone; simpl.
  { split; [done|]. apply not_elem_of_nil. }
  destruct (gone_step c st n Hle Hnone) as [Hnone' Hiss].
  pose proof (counter_step c st) as Hmono.
  destruct (IH (call_step c st)) as [Hrun Hnot]; [lia|done|].
  split; [done|].
  destruct (call_issued c st) as [m|] eqn:Hm; [|done].
  rewrite not_elem_of_cons. split; [congruence|done].
Qed.

End Histories.

(** C1. Whatever calls are made on a new ledger (counter 9999, no
    accounts), the account numbers handed out are strictly increasing in
    the order of the calls, hence pairwise distinct, and lie between
    10000 and 99999; this holds with removals among the calls, so a number
    is not handed out a second time. In the ledger reached, [create_account]
    reports that the bank is full exactly when the counter is 99999;
    otherwise it returns the counter plus one, makes that the counter and
    enters the account with balance 0. *)
Theorem create_account_numbering (cs : list call) :
  let st := run cs fresh_ledger in
  StronglySorted Z.lt (issued cs fresh_ledger)
  ∧ NoDup (issued cs fresh_ledger)
  ∧ Forall (λ n, 10000 ≤ n ≤ 99999) (issued cs fresh_ledger)
  ∧ 9999 ≤ last_account st ≤ 99999
  ∧ if decide (last_account st = 99999)
    then create_account st = (st, (None, Some msg_capacity))
    else (create_account st).2 = (Some (last_account st + 1), None)
         ∧ last_account (create_account st).1 = last_account st + 1
         ∧ get_balance (last_account st + 1) st = None
         ∧ get_balance (last_account st + 1) (create_account st).1 = Some 0.
Proof.
  intros st.
  pose proof (inv_run cs fresh_ledger inv_fresh) as [Hc Hk]. fold st in Hc, Hk.
  split; [apply issued_sorted|].
  split; [apply sorted_NoDup, issued_sorted|].
  split.
  { eapply Forall_impl; [apply issued_above|]. simpl. intros; lia. }
  split; [done|].
  case_decide as Hfull.
  - apply create_full. lia.
  - assert (Hroom : last_account st < 99999) by lia.
    pose proof (create_room st Hroom) as Hcreate.
    rewrite Hcreate. simpl. split; [done|]. split; [done|].
    unfold get_balance; simpl. split; [|apply lookup_insert_eq].
    destruct (accounts st !! Py.str (last_account st + 1)) eqn:Hl; [|done].
    apply Hk in Hl as (m & Hm%str_inj & ?). lia.
Qed.

(** C4. In a ledger built by calls on a new one, [remove_account]
    reports no error exactly when the account exists with balance 0: for
    no such account it reports that the account does not exist, for a
    balance other than 0 that the account holds money, and leaves the
    ledger as it was. After a removal [get_balance] finds no such account,
    now and after any further calls, none of which hands the number out
    again. *)
Theorem remove_account_zero_balance (cs : list call) (n : Z) :
  let st := run cs fresh_ledger in
  match get_balance n st with
  | None => remove_account n st = (st, Some msg_no_account)
  | Some balance =>
      if decide (balance = 0)
      then (remove_account n st).2 = None
           ∧ get_balance n (remove_account n st).1 = None
           ∧ ∀ cs', get_balance n (run cs' (remove_account n st).1) = None
                    ∧ n ∉ issued cs' (remove_account n st).1
      else remove_account n st = (st, Some msg_nonzero)
  end.
Proof.
  intros st.
  pose proof (inv_run cs fresh_ledger inv_fresh) as [Hc Hk]. fold st in Hc, Hk.
  destruct (get_balance n st) as [balance|] eqn:Hb.
  - case_decide as Hz.
    + subst balance. rewrite (remove_granted _ _ Hb). simpl.
      assert (get_balance n
                (save (mkBankData (last_account st)
                         (delete (Py.str n) (accounts st)) (data_file st)))
              = None) as Hgone.
      { unfold get_balance; simpl. apply lookup_delete_eq. }
      split; [done|]. split; [done|].
      intros cs'. apply gone_forever; [|done]. simpl.
      apply Hk in Hb as (m & Hm%str_inj & ?). lia.
    + by apply (remove_refused _ _ _ Hb).
  - by apply remove_absent.
Qed.

(** ** The file: [save] then [load] *)

Section Persistence.

Implicit Types (st : BankData) (accts : gmap string Z).









End Persistence.


(** ** What a command line comes to *)

Section Plans.

Context {S : Type} `{Ledger S}.

Lemma dispatch_plan (bank_ip cmd : string) (tokens : list string) (st : S) :
  dispatch bank_ip cmd tokens st = run_plan bank_ip (plan bank_ip cmd tokens) st.
Proof.
  unfold dispatch, plan, token_count.
  (* one verb after the other, by the number of tokens *)
  repeat (case_decide;
    [subst cmd; simpl;
     destruct tokens as [|t0 [|t1 [|t2 [|t3 ts]]]]; try reflexivity|]).
  (* left: the four verbs with an account, and the unknown verb *)
  all: try (rewrite !bool_decide_eq_false_2
              by (rewrite ?elem_of_cons, elem_of_nil; tauto); reflexivity).
  all: unfold on_account, plan_account, plan_amount, bind, lift, run_plan; simpl.
  all: destruct (parse_account_spec t1) as [[[n ip]|err]|e]; simpl;
    try reflexivity.
  all: case_decide; simpl; try reflexivity.
  all: destruct (parse_amount t2); reflexivity.
Qed.

End Plans.

Section Answers.

Context {S : Type} `{Ledger S}.

Implicit Types (st : S) (log : list call) (o : outcome string).

Lemma process_command_plan (bank_ip line : string) st :
  process_command bank_ip line st
  = match Py.split line with
    | [] => (st, msg_empty)
    | verb :: rest =>
        match run_plan bank_ip (plan bank_ip (Py.upper verb) (verb :: rest)) st with
        | (st', Return response) => (st', response)
        | (st', Raise _) => (st', msg_application)
        end
    end.
Proof.
  unfold process_command. destruct (Py.split line) as [|verb rest]; [done|].
  by rewrite dispatch_plan.
Qed.


End Answers.

Section Recording.

Context {S : Type} `{Ledger S}.

Implicit Types (st : S) (log : list call).

Lemma perform_recording (bank_ip : string) (c : call) st log :
  perform bank_ip c (st, log)
  = (((perform bank_ip c st).1, c :: log), (perform bank_ip c st).2).
Proof.
  destruct c as [|n amount|n amount|n|n| |]; unfold perform, bind; simpl.
  - by destruct (ledger_create_account st) as [st' [[account_number err]|e]].
  - by destruct (ledger_deposit n amount st) as [st' [err|e]].
  - by destruct (ledger_withdraw n amount st) as [st' [err|e]].
  - by destruct (ledger_get_balance n st) as [st' [[b|]|e]].
  - by destruct (ledger_remove_account n st) as [st' [err|e]].
  - by destruct (ledger_total_amount st) as [st' [total|e]].
  - by destruct (ledger_number_of_clients st) as [st' [count|e]].
Qed.

(** With a recording ledger the command does what it does without one,
    and the log grows by the one call of the plan, if it has one. *)
Lemma process_command_recording (bank_ip line : string) st log :
  process_command bank_ip line (st, log)
  = (((process_command bank_ip line st).1,
      match Py.split line with
      | verb :: rest =>
          match plan bank_ip (Py.upper verb) (verb :: rest) with
          | inr c => c :: log
          | inl _ => log
          end
      | [] => log
      end),
     (process_command bank_ip line st).2).
Proof.
  rewrite !process_command_plan.
  destruct (Py.split line) as [|verb rest]; [done|].
  destruct (plan bank_ip (Py.upper verb) (verb :: rest)) as [[response|e]|c];
    simpl; try done.
  rewrite perform_recording.
  by destruct (perform bank_ip c st) as [st' [response|e]].
Qed.

End Recording.

Section PlanFacts.

Implicit Types (bank_ip cmd spec : string) (tokens : list string).






Lemma parse_amount_nonneg (amount_str : string) (amount : Z) :
  parse_amount amount_str = Some amount → 0 ≤ amount.
Proof.
  unfold parse_amount. destruct (Py.int amount_str); [|done].
  case_decide; intros [=]. lia.
Qed.


(** The one call of a plan carries an amount the ledger may take. *)
Lemma plan_amount_ok bank_ip cmd tokens (c : call) :
  plan bank_ip cmd tokens = inr c → amount_ok c.
Proof.
  unfold plan.
  destruct (token_count cmd) as [[|[|[|[|n]]]]|]; try done;
    destruct tokens as [|t0 [|t1 [|t2 [|t3 ts]]]]; try done.
  - repeat case_decide; by intros [= <-].
  - unfold plan_account. destruct (parse_account_spec t1) as [[[n ip]|err]|e];
      try done.
    case_decide; [done|]. case_decide; by intros [= <-].
  - unfold plan_account, plan_amount.
    destruct (parse_account_spec t1) as [[[n ip]|err]|e]; try done.
    case_decide; [done|].
    destruct (parse_amount t2) as [amount|] eqn:Ha; [|done].
    apply parse_amount_nonneg in Ha.
    case_decide; by intros [= <-].
Qed.

End PlanFacts.






(** ** The answers of the server *)

Section Lines.

Implicit Types (s t bank_ip : string) (st : BankData) (c : call).

Lemma has_newline_app s t :
  has_newline (s +:+ t) = has_newline s || has_newline t.
Proof.
  induction s as [|ch s IH]; simpl; [done|]. by rewrite IH, orb_assoc.
Qed.

Lemma digit_no_newline (x : N) s :
  has_newline (String (pretty_N_char x) s) = has_newline s.
Proof. unfold pretty_N_char. by repeat case_match. Qed.

Lemma pretty_N_go_no_newline (x : N) s :
  has_newline s = false → has_newline (pretty_N_go x s) = false.
Proof.
  revert s. induction (N.lt_wf_0 x) as [x _ IH]; intros s Hs.
  destruct (decide (x = 0)%N) as [->|Hx]; [done|].
  rewrite pretty_N_go_step by lia.
  apply IH; [apply N.div_lt; lia|]. by rewrite digit_no_newline.
Qed.

Lemma pretty_N_no_newline (x : N) : has_newline (pretty x) = false.
Proof.
  unfold pretty, pretty_N. case_decide; [done|].
  by apply pretty_N_go_no_newline.
Qed.

Lemma str_no_newline (n : Z) : has_newline (Py.str n) = false.
Proof.
  unfold Py.str, pretty, pretty_Z. destruct n as [|p|p]; [done|..].
  - apply pretty_N_no_newline.
  - rewrite has_newline_app. simpl. apply pretty_N_no_newline.
Qed.

(** Give the answer of a call and leave its two properties to prove. *)
Local Ltac answered := eexists; split; [reflexivity|]; split.

(** What a call to [BankData] comes to: the ledger of [call_step] and
    an answer, never an exception. *)
Lemma perform_BankData bank_ip c st :
  ∃ response,
    perform bank_ip c st = (call_step c st, Return response)
    ∧ (has_newline bank_ip = false → has_newline response = false)
    ∧ (is_error response = true ∨ success_response bank_ip response).
Proof.
  unfold success_response.
  destruct c as [|n amount|n amount|n|n| |]; unfold perform, bind; simpl.
  - unfold create_account. case_decide; simpl.
    + answered; [done|]. by left.
    + answered.
      * intros Hip. unfold answer, truthy.
        by rewrite !has_newline_app, str_no_newline, Hip.
      * right. right. left. by eexists.
  - unfold deposit. destruct (accounts st !! Py.str n); simpl.
    + answered; [done|]. auto 10.
    + answered; [done|]. by left.
  - unfold withdraw. destruct (accounts st !! Py.str n); simpl;
      [case_decide; simpl|].
    + answered; [done|]. by left.
    + answered; [done|]. auto 10.
    + answered; [done|]. by left.
  - unfold get_balance. destruct (accounts st !! Py.str n) as [b|]; simpl.
    + answered.
      * intros _. change (has_newline ("AB " +:+ Py.str b) = false).
        rewrite has_newline_app, str_no_newline. done.
      * do 5 right. left. by eexists.
    + answered; [done|]. by left.
  - unfold remove_account. destruct (accounts st !! Py.str n); simpl;
      [case_decide; simpl|].
    + answered; [done|]. by left.
    + answered; [done|].
      do 6 right. by left.
    + answered; [done|]. by left.
  - answered.
    + intros _. change (has_newline ("BA " +:+ Py.str (total_amount st)) = false).
      rewrite has_newline_app, str_no_newline. done.
    + do 7 right. left. by eexists.
  - answered.
    + intros _.
      change (has_newline ("BN " +:+ Py.str (number_of_clients st)) = false).
      rewrite has_newline_app, str_no_newline. done.
    + do 8 right. by eexists.
Qed.







Lemma plan_account_no_exception bank_ip spec k e :
  (∀ n, k n ≠ inl (Raise e)) → plan_account bank_ip spec k ≠ inl (Raise e).
Proof.
  intros Hk. unfold plan_account.
  destruct (parse_account_spec_returns spec) as [[[n ip]|err] ->]; [|done].
  case_decide; [done|apply Hk].
Qed.

Lemma plan_no_exception bank_ip cmd tokens e :
  plan bank_ip cmd tokens ≠ inl (Raise e).
Proof.
  unfold plan. destruct (token_count cmd) as [[|[|[|[|n]]]]|]; try done;
    destruct tokens as [|t0 [|t1 [|t2 [|t3 ts]]]]; try done.
  - by repeat case_decide.
  - by apply plan_account_no_exception.
  - apply plan_account_no_exception. intros n. unfold plan_amount.
    by destruct (parse_amount t2).
Qed.

(** With [BankData] for a ledger, nothing in the [try] block raises. *)
Lemma dispatch_BankData_returns bank_ip cmd tokens st :
  ∃ st' response, dispatch bank_ip cmd tokens st = (st', Return response).
Proof.
  rewrite dispatch_plan.
  destruct (plan bank_ip cmd tokens) as [[response|e]|c] eqn:Hplan; simpl.
  - by eexists _, _.
  - by apply plan_no_exception in Hplan.
  - destruct (perform_BankData bank_ip c st) as (response & -> & _).
    by eexists _, _.
Qed.

End Lines.

(** On [BankData] a command is one call of [call_step] at most, with an
    amount that is not negative. *)
Lemma process_command_step (bank_ip line : string) (st : BankData) :
  (process_command bank_ip line st).1 = st
  ∨ ∃ c, amount_ok c ∧ (process_command bank_ip line st).1 = call_step c st.
Proof.
  rewrite process_command_plan.
  destruct (Py.split line) as [|verb rest]; [by left|].
  destruct (plan bank_ip (Py.upper verb) (verb :: rest)) as [[response|e]|c] eqn:Hc;
    simpl; [by left..|].
  right. exists c. split; [by eapply plan_amount_ok|].
  destruct (perform_BankData bank_ip c st) as (response & -> & _). done.
Qed.

(** Through the server no balance becomes negative. *)
Lemma serve_balances_nonneg (bank_ip : string) (lines : list string) (st : BankData) :
  balances_nonneg st → balances_nonneg (serve bank_ip lines st).1.
Proof.
  revert st. induction lines as [|line lines IH]; intros st Hst; simpl; [done|].
  destruct (process_command bank_ip line st) as [st1 response] eqn:H1.
  specialize (IH st1).
  destruct (serve bank_ip lines st1) as [st2 responses]. simpl in *.
  apply IH.
  destruct (process_command_step bank_ip line st) as [Hs|(c & Hok & Hs)];
    rewrite H1 in Hs; simpl in Hs; subst st1; [done|by apply nonneg_step].
Qed.

(** C2. For an existing account and an amount that is not negative,
    [withdraw] reports insufficient funds and leaves the ledger as it was
    when the amount is greater than the balance; otherwise it reports no
    error and the balance goes down by the amount. So no balance is
    negative after any calls with amounts that are not negative on a new
    ledger, nor after any command lines sent to a server that started
    with a new ledger. *)
Theorem withdraw_within_balance (st : BankData) (n amount balance : Z) :
  0 ≤ amount →
  get_balance n st = Some balance →
  (if decide (amount > balance)
   then withdraw n amount st = (st, Some msg_insufficient)
   else (withdraw n amount st).2 = None
        ∧ get_balance n (withdraw n amount st).1 = Some (balance - amount))
  ∧ (∀ cs, Forall amount_ok cs →
       ∀ m b, get_balance m (run cs fresh_ledger) = Some b → 0 ≤ b)
  ∧ (∀ (bank_ip : string) (lines : list string) m b,
       get_balance m (serve bank_ip lines fresh_ledger).1 = Some b → 0 ≤ b).
Proof.
  intros _ Hb. split; [|split].
  - case_decide.
    + apply (withdraw_refused _ _ _ _ Hb). lia.
    + rewrite (withdraw_granted _ _ _ _ Hb) by lia. split; [done|].
      unfold get_balance; simpl. apply lookup_insert_eq.
  - intros cs Hok m b Hm.
    exact (nonneg_run cs fresh_ledger Hok nonneg_fresh _ _ Hm).
  - intros bank_ip lines m b Hm.
    exact (serve_balances_nonneg bank_ip lines fresh_ledger nonneg_fresh _ _ Hm).
Qed.

Lemma withdraw_within_balance_witness :
  let st := (deposit 10000 500 (create_account fresh_ledger).1).1 in
  get_balance 10000 st = Some 500
  ∧ withdraw 10000 600 st = (st, Some msg_insufficient).
Proof.
  intros st.
  assert (Hb : get_balance 10000 st = Some 500) by reflexivity.
  assert (H600 : 0 ≤ 600) by lia.
  split; [exact Hb|].
  exact (proj1 (withdraw_within_balance st 10000 600 500 H600 Hb)).
Defined.




Section Leniency.

Implicit Types (s t : string) (acc : Z).

Lemma no_space_app s t : no_space (s +:+ t) = no_space s && no_space t.
Proof.
  induction s as [|c s IH]; [done|].
  rewrite append_cons. simpl. by rewrite IH, andb_assoc.
Qed.





End Leniency.


(** ** A session

    The scenarios of the protocol, on a node at 10.0.0.5 with a new
    ledger. *)
Example session :
  (serve "10.0.0.5"
     ["BC"; "AC"; "AC"; "AD 10000/10.0.0.5 500"; "AB 10000/10.0.0.5";
      "AW 10000/10.0.0.5 600"; "AR 10000/10.0.0.5"; "AW 10000/10.0.0.5 500";
      "AR 10000/10.0.0.5"; "AB 10000/10.0.0.5"; "XY"; "BA"; "BN"]
     fresh_ledger).2
  = ["BC 10.0.0.5"; "AC 10000/10.0.0.5"; "AC 10001/10.0.0.5"; "AD"; "AB 500";
     "ER Není dostatek finančních prostředků.";
     "ER Nelze smazat bankovní účet na kterém jsou finance."; "AW"; "AR";
     "ER Bankovní účet neexistuje."; "ER Neznámý příkaz."; "BA 0"; "BN 1"].
Proof. reflexivity. Qed.

(** * Further properties of the ledger, the parsers and the connection *)

(** * Further properties of the ledger *)

Section LedgerFrames.

Implicit Types (st : BankData) (c : call) (cs : list call) (n m : Z).

Lemma call_step_other c st m :
  call_account c st ≠ Some m →
  get_balance m (call_step c st) = get_balance m st.
Proof.
  unfold get_balance. intros Hm.
  assert (∀ n, Some n ≠ Some m → Py.str n ≠ Py.str m) as Hkey.
  { intros n Hn Heq. apply Hn. f_equal. by apply str_inj. }
  destruct c as [|n amount|n amount|n|n| |]; simpl in *; try done.
  - unfold create_account. case_decide; simpl; [done|].
    by rewrite lookup_insert_ne by by apply Hkey.
  - unfold deposit. destruct (accounts st !! Py.str n); simpl; [|done].
    by rewrite lookup_insert_ne by by apply Hkey.
  - unfold withdraw. destruct (accounts st !! Py.str n); simpl; [|done].
    case_decide; simpl; [done|].
    by rewrite lookup_insert_ne by by apply Hkey.
  - unfold remove_account. destruct (accounts st !! Py.str n); simpl; [|done].
    case_decide; simpl; [done|].
    by rewrite lookup_delete_ne by by apply Hkey.
Qed.

Lemma call_step_counter c st :
  c ≠ CreateAccount → last_account (call_step c st) = last_account st.
Proof.
  destruct c as [|n amount|n amount|n|n| |]; simpl; try done; intros _.
  - unfold deposit. by destruct (accounts st !! Py.str n).
  - unfold withdraw. destruct (accounts st !! Py.str n); [|done].
    by case_decide.
  - unfold remove_account. destruct (accounts st !! Py.str n); [|done].
    by case_decide.
Qed.

End LedgerFrames.

(** X1. A call changes no account but its own: the balance of every other
    account number, and whether it has an account, is the same after the
    call; and only [create_account] moves the counter. *)
Theorem call_frame (c : call) (st : BankData) (m : Z) :
  call_account c st ≠ Some m →
  get_balance m (call_step c st) = get_balance m st
  ∧ (c ≠ CreateAccount → last_account (call_step c st) = last_account st).
Proof.
  intros Hm. split; [by apply call_step_other|apply call_step_counter].
Qed.

Lemma call_frame_witness :
  let st := (create_account (create_account fresh_ledger).1).1 in
  get_balance 10001 (call_step (Deposit 10000 500) st) = Some 0
  ∧ last_account (call_step (Deposit 10000 500) st) = 10001.
Proof.
  intros st.
  assert (Hm : call_account (Deposit 10000 500) st ≠ Some 10001) by discriminate.
  assert (Hc : Deposit 10000 500 ≠ CreateAccount) by discriminate.
  pose proof (call_frame (Deposit 10000 500) st 10001 Hm) as [Hb Hl].
  split; [exact Hb|exact (Hl Hc)].
Defined.

Section Totals.

Implicit Types (st : BankData) (c : call) (cs : list call) (n : Z)
  (accts : gmap string Z) (files : list file_content).

Lemma total_delete last accts files key balance :
  accts !! key = Some balance →
  total_amount (mkBankData last (delete key accts) files)
  = total_amount (mkBankData last accts files) - balance.
Proof.
  intros Hkey. unfold total_amount; simpl.
  rewrite (map_fold_delete_L _ 0 key balance accts); [lia| |done].
  intros; lia.
Qed.

Lemma total_insert_new last accts files key balance :
  accts !! key = None →
  total_amount (mkBankData last (<[key := balance]> accts) files)
  = total_amount (mkBankData last accts files) + balance.
Proof.
  intros Hkey. unfold total_amount; simpl.
  rewrite map_fold_insert_L; [done| |done]. intros; lia.
Qed.

Lemma total_insert_old last accts files key balance old :
  accts !! key = Some old →
  total_amount (mkBankData last (<[key := balance]> accts) files)
  = total_amount (mkBankData last accts files) - old + balance.
Proof.
  intros Hkey. rewrite <-insert_delete_eq.
  rewrite total_insert_new by apply lookup_delete_eq.
  by rewrite (total_delete _ _ _ _ _ Hkey).
Qed.

Lemma total_amount_eq st :
  total_amount st = total_amount (mkBankData 0 (accounts st) []).
Proof. done. Qed.

Lemma total_step c st :
  get_balance (last_account st + 1) st = None →
  total_amount (call_step c st)
  = total_amount st + match call_error c st with
                      | None => call_amount c
                      | Some _ => 0
                      end.
Proof.
  unfold get_balance. intros Hnew.
  rewrite (total_amount_eq (call_step c st)), (total_amount_eq st).
  destruct c as [|n amount|n amount|n|n| |]; simpl; try lia.
  - unfold create_account. case_decide; simpl; [lia|].
    by rewrite total_insert_new.
  - unfold deposit. destruct (accounts st !! Py.str n) as [b|] eqn:Hn; simpl;
      [|lia].
    rewrite (total_insert_old _ _ _ _ _ _ Hn). lia.
  - unfold withdraw. destruct (accounts st !! Py.str n) as [b|] eqn:Hn; simpl;
      [|lia].
    case_decide; simpl; [lia|].
    rewrite (total_insert_old _ _ _ _ _ _ Hn). lia.
  - unfold remove_account.
    destruct (accounts st !! Py.str n) as [b|] eqn:Hn; simpl; [|lia].
    case_decide as Hb; simpl; [lia|].
    rewrite (total_delete _ _ _ _ _ Hn).
    assert (b = 0) by (destruct (decide (b = 0)); [done|by exfalso]). lia.
Qed.

Lemma inv_next_free st :
  ledger_inv st → get_balance (last_account st + 1) st = None.
Proof.
  intros [_ Hk]. unfold get_balance.
  destruct (accounts st !! Py.str (last_account st + 1)) eqn:Hl; [|done].
  apply Hk in Hl as (m & Hm%str_inj & ?). lia.
Qed.

Lemma total_run cs st :
  ledger_inv st → total_amount (run cs st) = total_amount st + moved cs st.
Proof.
  revert st. induction cs as [|c cs IH]; intros st Hinv; simpl; [lia|].
  rewrite IH by by apply inv_step.
  rewrite total_step by by apply inv_next_free. lia.
Qed.

Lemma total_nonneg st : balances_nonneg st → 0 ≤ total_amount st.
Proof.
  unfold balances_nonneg. rewrite total_amount_eq.
  generalize (accounts st) as accts. intros accts.
  induction accts as [|key b accts Hkey IH] using map_ind; intros Hnn; [done|].
  rewrite total_insert_new by done.
  assert (0 ≤ b) by (apply (Hnn key); apply lookup_insert_eq).
  assert (0 ≤ total_amount (mkBankData 0 accts [])).
  { apply IH. intros k' b' Hk'. apply (Hnn k').
    rewrite lookup_insert_ne; [done|]. intros ->. congruence. }
  lia.
Qed.

Lemma balance_le_total st n balance :
  balances_nonneg st → get_balance n st = Some balance →
  balance ≤ total_amount st.
Proof.
  unfold get_balance. intros Hnn Hn.
  pose proof (total_delete 0 (accounts st) [] _ _ Hn) as Hdel.
  rewrite <-total_amount_eq in Hdel.
  assert (0 ≤ total_amount (mkBankData 0 (delete (Py.str n) (accounts st)) []))
    as Hrest.
  { apply total_nonneg. intros k b; simpl. rewrite lookup_delete.
    case_decide; [done|]. apply Hnn. }
  lia.
Qed.

End Totals.

(** X2. The sum [total_amount] returns follows the money: in a ledger
    built by calls on a new one, a call changes it by the amount of a
    deposit that reports no error, by minus the amount of such a
    withdrawal, and not at all otherwise (creating or removing an account,
    any call that reports an error); so after the calls [cs] on a new
    ledger it is what the deposits and withdrawals that went through
    have moved. *)
Theorem total_amount_conserved (cs : list call) (c : call) :
  let st := run cs fresh_ledger in
  total_amount fresh_ledger = 0
  ∧ total_amount (call_step c st)
    = total_amount st + match call_error c st with
                        | None => call_amount c
                        | Some _ => 0
                        end
  ∧ total_amount st = moved cs fresh_ledger.
Proof.
  intros st. split; [done|]. split.
  - apply total_step, inv_next_free, inv_run, inv_fresh.
  - unfold st. by rewrite total_run by apply inv_fresh.
Qed.

(** X3. While the amounts of the calls are not negative, no account holds
    more than the bank in all: each balance lies between 0 and
    [total_amount], which is not negative. *)
Theorem balance_within_total (cs : list call) (n balance : Z) :
  Forall amount_ok cs →
  get_balance n (run cs fresh_ledger) = Some balance →
  0 ≤ balance ≤ total_amount (run cs fresh_ledger).
Proof.
  intros Hok Hn.
  pose proof (nonneg_run cs fresh_ledger Hok nonneg_fresh) as Hnn.
  split; [exact (Hnn _ _ Hn)|by apply (balance_le_total _ n)].
Qed.

Lemma balance_within_total_witness :
  0 ≤ 500 ≤ total_amount
              (run [CreateAccount; CreateAccount; Deposit 10000 500;
                    Deposit 10001 70] fresh_ledger).
Proof.
  apply (balance_within_total
           [CreateAccount; CreateAccount; Deposit 10000 500; Deposit 10001 70]
           10000 500).
  - repeat constructor; simpl; lia.
  - reflexivity.
Defined.

Section Clients.

Implicit Types (st : BankData) (c : call) (cs : list call) (n : Z).

Lemma clients_step c st :
  get_balance (last_account st + 1) st = None →
  number_of_clients (call_step c st)
  = number_of_clients st + match c, call_error c st with
                           | CreateAccount, None => 1
                           | RemoveAccount _, None => -1
                           | _, _ => 0
                           end.
Proof.
  unfold get_balance, number_of_clients. intros Hnew.
  destruct c as [|n amount|n amount|n|n| |]; simpl; try lia.
  - unfold create_account. case_decide; simpl; [lia|].
    rewrite map_size_insert_None by done. lia.
  - unfold deposit. destruct (accounts st !! Py.str n) as [b|] eqn:Hn; simpl;
      [|lia].
    rewrite map_size_insert_Some by by eexists. lia.
  - unfold withdraw. destruct (accounts st !! Py.str n) as [b|] eqn:Hn; simpl;
      [|lia].
    case_decide; simpl; [lia|].
    rewrite map_size_insert_Some by by eexists. lia.
  - unfold remove_account.
    destruct (accounts st !! Py.str n) as [b|] eqn:Hn; simpl; [|lia].
    case_decide; simpl; [lia|].
    rewrite map_size_delete_Some by by eexists.
    assert (size (accounts st) ≠ 0%nat).
    { intros Hz%map_size_empty_inv. rewrite Hz, lookup_empty in Hn. done. }
    lia.
Qed.

Lemma counter_issued cs st :
  last_account (run cs st)
  = last_account st + Z.of_nat (List.length (issued cs st)).
Proof.
  revert st. induction cs as [|c cs IH]; intros st; simpl; [lia|].
  rewrite IH. destruct (call_issued c st) as [n|] eqn:Hn; simpl.
  - apply issued_step in Hn as (-> & -> & _). lia.
  - assert (last_account (call_step c st) = last_account st) as ->; [|lia].
    destruct c; try (by apply call_step_counter).
    simpl in *. unfold create_account in *. by case_decide.
Qed.

Lemma clients_run cs st :
  ledger_inv st →
  number_of_clients (run cs st) - number_of_clients st
  ≤ last_account (run cs st) - last_account st.
Proof.
  revert st. induction cs as [|c cs IH]; intros st Hinv; simpl; [lia|].
  specialize (IH (call_step c st) (inv_step c st Hinv)).
  pose proof (clients_step c st (inv_next_free st Hinv)) as Hstep.
  pose proof (counter_step c st) as Hmono.
  assert (number_of_clients (call_step c st) - number_of_clients st
          ≤ last_account (call_step c st) - last_account st); [|lia].
  rewrite Hstep. destruct c; simpl in *; try lia.
  - unfold create_account in *. case_decide; simpl in *; lia.
  - destruct (remove_account account_number st).2; lia.
Qed.

End Clients.

(** X4. The counter counts the accounts ever opened: in a ledger built
    by calls on a new one it is 9999 plus the number of account numbers
    handed out, and [number_of_clients] is at most that number (so at most
    90000). A call changes [number_of_clients] by one up for a creation
    and one down for a removal that report no error, and not at all
    otherwise. *)
Theorem clients_and_counter (cs : list call) (c : call) :
  let st := run cs fresh_ledger in
  last_account st = 9999 + Z.of_nat (List.length (issued cs fresh_ledger))
  ∧ 0 ≤ number_of_clients st ≤ last_account st - 9999
  ∧ last_account st - 9999 ≤ 90000
  ∧ number_of_clients (call_step c st)
    = number_of_clients st + match c, call_error c st with
                             | CreateAccount, None => 1
                             | RemoveAccount _, None => -1
                             | _, _ => 0
                             end.
Proof.
  intros st. pose proof (inv_run cs fresh_ledger inv_fresh) as Hinv.
  split; [apply (counter_issued cs fresh_ledger)|]. split.
  - pose proof (clients_run cs fresh_ledger inv_fresh) as Hle.
    fold st in Hle. change (number_of_clients fresh_ledger) with 0 in Hle.
    change (last_account fresh_ledger) with 9999 in Hle.
    unfold number_of_clients in *. lia.
  - split; [destruct Hinv as [Hc _]; fold st in Hc; lia|].
    by apply clients_step, inv_next_free.
Qed.






(** * Further properties of the protocol *)

Section ValidIpMore.

Import Re.

Implicit Types (s t ip q : string).






End ValidIpMore.



Section Numbers.

Implicit Types (s t : string) (c : ascii) (acc : Z) (x : N).

Lemma decimal_from_shift acc s :
  decimal_from acc s = acc * 10 ^ Z.of_nat (String.length s) + decimal s.
Proof.
  unfold decimal. revert acc. induction s as [|c s IH]; intros acc; simpl.
  { lia. }
  rewrite (IH (10 * acc + Py.digit_value c)), (IH (10 * 0 + Py.digit_value c)).
  rewrite Nat2Z.inj_succ, Z.pow_succ_r by lia. lia.
Qed.

Lemma pretty_N_char_digit x :
  (x < 10)%N →
  Py.is_digit (pretty_N_char x) = true
  ∧ Py.digit_value (pretty_N_char x) = Z.of_N x.
Proof.
  intros Hx.
  assert (x = 0 ∨ x = 1 ∨ x = 2 ∨ x = 3 ∨ x = 4 ∨ x = 5 ∨ x = 6 ∨ x = 7
          ∨ x = 8 ∨ x = 9)%N as Hcases by lia.
  repeat (destruct Hcases as [->|Hcases]; [done|]). by subst x.
Qed.

Lemma pretty_N_go_decimal x s :
  digits_only s = true →
  digits_only (pretty_N_go x s) = true
  ∧ decimal (pretty_N_go x s)
    = Z.of_N x * 10 ^ Z.of_nat (String.length s) + decimal s.
Proof.
  revert s. induction (N.lt_wf_0 x) as [x _ IH]; intros s Hs.
  destruct (decide (x = 0)%N) as [->|Hx]; [rewrite pretty_N_go_0; split; [done|lia]|].
  rewrite pretty_N_go_step by lia.
  destruct (pretty_N_char_digit (x `mod` 10)) as [Hd Hv].
  { apply N.mod_lt. lia. }
  destruct (IH (x `div` 10)%N) with (s := String (pretty_N_char (x `mod` 10)) s)
    as [IHd IHv].
  { apply N.div_lt; lia. }
  { simpl. by rewrite Hd, Hs. }
  split; [done|]. rewrite IHv.
  unfold decimal at 1. simpl. rewrite decimal_from_shift, Hv.
  rewrite Nat2Z.inj_succ, Z.pow_succ_r by lia.
  pose proof (N.div_mod x 10 ltac:(lia)) as Hdm.
  assert (Z.of_N x = 10 * Z.of_N (x `div` 10) + Z.of_N (x `mod` 10)) as ->.
  { rewrite Hdm at 1. lia. }
  lia.
Qed.

(** [int] reads what [str] writes. *)
Lemma int_str (n : Z) : 0 ≤ n → Py.int (Py.str n) = Some n.
Proof.
  intros Hn. unfold Py.str, pretty, pretty_Z.
  destruct n as [|p|p]; [done| |lia].
  unfold pretty, pretty_positive, pretty, pretty_N.
  rewrite decide_False by done.
  destruct (pretty_N_go_decimal (N.pos p) EmptyString eq_refl) as [Hd Hv].
  rewrite int_digits_only; [|done|].
  - rewrite Hv. simpl. f_equal. unfold decimal. simpl. lia.
  - intros Hempty. rewrite Hempty in Hv. unfold decimal in Hv. simpl in Hv. lia.
Qed.

Lemma str_digits (n : Z) :
  0 ≤ n → digits_only (Py.str n) = true ∧ Py.str n ≠ EmptyString.
Proof.
  intros Hn. unfold Py.str, pretty, pretty_Z.
  destruct n as [|p|p]; [done| |lia].
  unfold pretty, pretty_positive, pretty, pretty_N.
  rewrite decide_False by done.
  destruct (pretty_N_go_decimal (N.pos p) EmptyString eq_refl) as [Hd Hv].
  split; [done|].
  intros Hempty. rewrite Hempty in Hv. unfold decimal in Hv. simpl in Hv. lia.
Qed.

End Numbers.

Section Splitting.

Implicit Types (s t w : string) (c sep : ascii).

(** [s] holds no [sep]: splitting it on [sep] gives [s] alone. *)
Lemma split_on_go_app sep s t :
  Py.split_on_go sep s = (s, []) →
  Py.split_on_go sep (s +:+ t)
  = (s +:+ (Py.split_on_go sep t).1, (Py.split_on_go sep t).2).
Proof.
  induction s as [|c s IH]; intros Hs.
  { rewrite !append_nil_l. by destruct (Py.split_on_go sep t). }
  rewrite !append_cons. simpl in *.
  destruct (Py.split_on_go sep s) as [w ws] eqn:Hgo.
  destruct (Ascii.eqb c sep); [done|]. injection Hs as -> ->.
  by rewrite IH.
Qed.

Lemma split_on_go_digits sep s :
  Py.is_digit sep = false → digits_only s = true →
  Py.split_on_go sep s = (s, []).
Proof.
  intros Hsep. induction s as [|c s IH]; simpl; [done|].
  intros [Hc Hs]%andb_true_iff. rewrite (IH Hs).
  destruct (Ascii.eqb_spec c sep) as [->|]; [congruence|done].
Qed.

Lemma split_on_go_quad (q : string) :
  dotted_quad q → Py.split_on_go "/" q = (q, []).
Proof.
  intros (a & b & c & d & -> & (Ha & _) & (Hb & _) & (Hc & _) & (Hd & _)).
  assert (∀ s, digits_only s = true → Py.split_on_go "/" s = (s, [])) as Hdig.
  { intros s. by apply split_on_go_digits. }
  assert (∀ t, Py.split_on_go "/" t = (t, []) →
               Py.split_on_go "/" ("." +:+ t) = ("." +:+ t, [])) as Hdot.
  { intros t Ht. rewrite (split_on_go_app "/" "." t eq_refl), Ht. done. }
  assert (∀ s t, digits_only s = true → Py.split_on_go "/" t = (t, []) →
                 Py.split_on_go "/" (s +:+ t) = (s +:+ t, [])) as Happ.
  { intros s t Hs Ht. by rewrite (split_on_go_app "/" s t (Hdig s Hs)), Ht. }
  auto 10.
Qed.

Lemma split_on_slash s t :
  Py.split_on_go "/" s = (s, []) → Py.split_on_go "/" t = (t, []) →
  Py.split_on "/" (s +:+ "/" +:+ t) = [s; t].
Proof.
  intros Hs Ht. unfold Py.split_on.
  rewrite (split_on_go_app "/" s _ Hs).
  change ("/" +:+ t) with (String "/" t). simpl. rewrite Ht. simpl.
  by rewrite append_nil_r.
Qed.

(** A word without blanks comes out of [split] whole. *)
Lemma split_go_word w t :
  no_space w = true →
  Py.split_go (w +:+ t) = (w +:+ (Py.split_go t).1, (Py.split_go t).2).
Proof.
  induction w as [|c w IH]; intros Hw.
  { rewrite !append_nil_l. by destruct (Py.split_go t). }
  simpl in Hw. apply andb_true_iff in Hw as [Hc Hw].
  rewrite !append_cons. simpl. rewrite (IH Hw).
  by destruct (Py.is_space c).
Qed.

Lemma split_two_words w t :
  no_space w = true → w ≠ EmptyString → no_space t = true → t ≠ EmptyString →
  Py.split (w +:+ " " +:+ t) = [w; t].
Proof.
  intros Hw Hw' Ht Ht'. unfold Py.split.
  rewrite (split_go_word w _ Hw).
  change (" " +:+ t) with (String " " t). simpl.
  pose proof (split_go_word t EmptyString Ht) as Hgo.
  rewrite append_nil_r in Hgo. rewrite Hgo. simpl.
  rewrite !append_nil_r. destruct t; [done|]. by destruct w.
Qed.

Lemma dotted_quad_no_space (q : string) : dotted_quad q → no_space q = true.
Proof.
  intros (a & b & c & d & -> & (Ha & _) & (Hb & _) & (Hc & _) & (Hd & _)).
  rewrite !no_space_app. simpl.
  by rewrite !digits_no_space.
Qed.

Lemma dotted_quad_valid (q : string) :
  dotted_quad q → is_valid_ip q = Return true.
Proof.
  intros Hq. apply is_valid_ip_dotted_quad; [|done].
  by apply no_space_has_newline, dotted_quad_no_space.
Qed.

End Splitting.



Section Identifiers.

Implicit Types (st : BankData) (bank_ip : string) (n : Z).

Lemma account_spec_parses n bank_ip :
  10000 ≤ n ≤ 99999 → dotted_quad bank_ip →
  parse_account_spec (Py.str n +:+ "/" +:+ bank_ip)
  = Return (inl (n, bank_ip)).
Proof.
  intros Hn Hq. unfold parse_account_spec.
  destruct (str_digits n) as [Hd Hne]; [lia|].
  rewrite split_on_slash;
    [|by apply split_on_go_digits|by apply split_on_go_quad].
  rewrite int_str by lia. rewrite decide_False by lia.
  by rewrite (dotted_quad_valid _ Hq).
Qed.

Lemma account_spec_token n bank_ip :
  10000 ≤ n ≤ 99999 → dotted_quad bank_ip →
  no_space (Py.str n +:+ "/" +:+ bank_ip) = true
  ∧ Py.str n +:+ "/" +:+ bank_ip ≠ EmptyString.
Proof.
  intros Hn Hq. destruct (str_digits n) as [Hd Hne]; [lia|]. split.
  - rewrite !no_space_app, (digits_no_space _ Hd), (dotted_quad_no_space _ Hq).
    done.
  - by destruct (Py.str n).
Qed.

End Identifiers.

(** X9. The identifier in the answer to AC names the account opened: in
    a ledger built by calls on a new one and not yet full, on a node
    whose address is a dotted quad, AC is answered [AC <number>/<address>]
    with the next number; [parse_account_spec] reads that identifier back
    as the number and the address; and AB on it is answered [AB 0]. *)
Theorem issued_identifier_usable (cs : list call) (bank_ip : string) :
  dotted_quad bank_ip →
  last_account (run cs fresh_ledger) < 99999 →
  let st := run cs fresh_ledger in
  let n := last_account st + 1 in
  let id := Py.str n +:+ "/" +:+ bank_ip in
  process_command bank_ip "AC" st = ((create_account st).1, "AC " +:+ id)
  ∧ parse_account_spec id = Return (inl (n, bank_ip))
  ∧ process_command bank_ip ("AB " +:+ id) (create_account st).1
    = ((create_account st).1, "AB 0").
Proof.
  intros Hq Hroom st n id. change (last_account st < 99999) in Hroom.
  pose proof (inv_run cs fresh_ledger inv_fresh) as Hinv. fold st in Hinv.
  destruct Hinv as [Hc Hk].
  assert (10000 ≤ n ≤ 99999) as Hn by (unfold n; lia).
  pose proof (account_spec_parses n bank_ip Hn Hq) as Hparse. fold id in Hparse.
  destruct (account_spec_token n bank_ip Hn Hq) as [Hspace Hne].
  fold id in Hspace, Hne.
  pose proof (create_room st Hroom) as Hcreate. fold n in Hcreate.
  split; [|split; [done|]].
  - rewrite process_command_plan.
    change (Py.split "AC") with ["AC"].
    change (plan bank_ip (Py.upper "AC") ["AC"]) with (@inr (outcome string) _ CreateAccount).
    unfold run_plan, perform, bind. simpl. by rewrite Hcreate.
  - rewrite process_command_plan.
    change ("AB " +:+ id) with ("AB" +:+ " " +:+ id).
    rewrite split_two_words by done.
    change (plan bank_ip (Py.upper "AB") ["AB"; id])
      with (plan_account bank_ip id (λ n, inr (GetBalance n))).
    unfold plan_account. rewrite Hparse, decide_False by auto.
    unfold run_plan, perform, bind. simpl. rewrite Hcreate.
    unfold get_balance. simpl. by rewrite lookup_insert_eq.
Qed.

Lemma issued_identifier_usable_witness :
  process_command "10.0.0.5" "AC" fresh_ledger
  = ((create_account fresh_ledger).1, "AC 10000/10.0.0.5")
  ∧ parse_account_spec "10000/10.0.0.5" = Return (inl (10000, "10.0.0.5"))
  ∧ process_command "10.0.0.5" "AB 10000/10.0.0.5" (create_account fresh_ledger).1
    = ((create_account fresh_ledger).1, "AB 0").
Proof.
  assert (Hq : dotted_quad "10.0.0.5").
  { exists "10", "0", "0", "5". unfold octet. simpl.
    repeat split; try reflexivity; try lia; by compute. }
  assert (Hroom : last_account (run [] fresh_ledger) < 99999) by (simpl; lia).
  exact (issued_identifier_usable [] "10.0.0.5" Hq Hroom).
Defined.

Section Commands.

Implicit Types (st : BankData) (bank_ip cmd line : string)
  (tokens : list string) (c : call).


Lemma plan_account_range bank_ip cmd tokens c :
  plan bank_ip cmd tokens = inr c → account_in_range c.
Proof.
  assert (∀ spec n ip, parse_account_spec spec = Return (inl (n, ip)) →
                       10000 ≤ n ≤ 99999) as Hrange.
  { intros spec n ip. unfold parse_account_spec.
    destruct (Py.split_on "/" spec) as [|a [|ip' [|extra parts]]]; try done.
    destruct (Py.int a) as [m|]; [|done]. case_decide; [done|].
    destruct (is_valid_ip ip') as [[|]|e]; try done. intros [= <- _]. lia. }
  unfold plan.
  destruct (token_count cmd) as [[|[|[|[|k]]]]|]; try done;
    destruct tokens as [|t0 [|t1 [|t2 [|t3 ts]]]]; try done.
  - repeat case_decide; by intros [= <-].
  - unfold plan_account.
    destruct (parse_account_spec t1) as [[[n ip]|err]|e] eqn:Hp; try done.
    apply Hrange in Hp. case_decide; [done|]. case_decide; by intros [= <-].
  - unfold plan_account, plan_amount.
    destruct (parse_account_spec t1) as [[[n ip]|err]|e] eqn:Hp; try done.
    apply Hrange in Hp. case_decide; [done|].
    destruct (parse_amount t2); [|done]. case_decide; by intros [= <-].
Qed.

Lemma plan_first_token bank_ip cmd (t0 t0' : string) (rest : list string) :
  plan bank_ip cmd (t0 :: rest) = plan bank_ip cmd (t0' :: rest).
Proof.
  unfold plan. destruct (token_count cmd) as [[|[|[|[|k]]]]|]; try done;
    by destruct rest as [|t1 [|t2 [|t3 ts]]].
Qed.


End Commands.




(** X12. What reaches the ledger: whatever the ledger object, a command
    makes no call to it or exactly one, and the account number of that
    call lies between 10000 and 99999 and its amount is not negative. *)
Theorem one_call_in_range {S : Type} `{Ledger S} (bank_ip line : string)
  (st : S) (log : list call) :
  (process_command bank_ip line (st, log)).1.2 = log
  ∨ ∃ c, (process_command bank_ip line (st, log)).1.2 = c :: log
         ∧ account_in_range c ∧ amount_ok c.
Proof.
  rewrite process_command_recording. simpl.
  destruct (Py.split line) as [|verb rest]; [by left|].
  destruct (plan bank_ip (Py.upper verb) (verb :: rest)) as [o|c] eqn:Hplan;
    [by left|].
  right. exists c. split; [done|].
  split; [by eapply plan_account_range|by eapply plan_amount_ok].
Qed.

(** X13. The verb may be written in any case of letters: two lines whose
    first tokens are the same once in capitals, and whose other tokens are
    equal, are answered alike and leave the same ledger, whatever the
    ledger object. *)
Theorem verb_case_insensitive {S : Type} `{Ledger S}
  (bank_ip line line' verb verb' : string) (rest : list string) (st : S) :
  Py.split line = verb :: rest →
  Py.split line' = verb' :: rest →
  Py.upper verb = Py.upper verb' →
  process_command bank_ip line st = process_command bank_ip line' st.
Proof.
  intros Hl Hl' Hverb.
  rewrite !process_command_plan, Hl, Hl', Hverb.
  by rewrite (plan_first_token bank_ip (Py.upper verb') verb verb' rest).
Qed.

Lemma verb_case_insensitive_witness :
  process_command "10.0.0.5" "ac" fresh_ledger
  = process_command "10.0.0.5" " Ac " fresh_ledger.
Proof.
  exact (verb_case_insensitive "10.0.0.5" "ac" " Ac " "ac" "Ac" [] fresh_ledger
           eq_refl eq_refl eq_refl).
Defined.

(** * The connection *)

Section Stripping.

Implicit Types (s t : string) (c : ascii).

Lemma split_lstrip s : Py.split (Py.lstrip s) = Py.split s.
Proof.
  unfold Py.split. induction s as [|c s IH]; [done|]. simpl.
  destruct (Py.is_space c) eqn:Hc; simpl.
  - rewrite IH. destruct (Py.split_go s) as [w ws]. by destruct w.
  - by rewrite Hc.
Qed.

Lemma split_go_rstrip s : Py.split_go (Py.rstrip s) = Py.split_go s.
Proof.
  induction s as [|c s IH]; [done|]. simpl.
  destruct (Py.rstrip s) as [|c' r] eqn:Hr.
  - simpl in IH. rewrite <-IH.
    destruct (Py.is_space c) eqn:Hc; simpl; [done|by rewrite Hc].
  - change (Py.split_go (String c (String c' r)))
      with (let '(w, ws) := Py.split_go (String c' r) in
            if Py.is_space c then (EmptyString, Py.cons_word w ws)
            else (String c w, ws)).
    by rewrite IH.
Qed.

Lemma split_strip s : Py.split (Py.strip s) = Py.split s.
Proof.
  unfold Py.strip. rewrite split_lstrip. unfold Py.split.
  by rewrite split_go_rstrip.
Qed.

Lemma lstrip_blank s : Py.lstrip s = EmptyString → Py.split s = [].
Proof.
  unfold Py.split. induction s as [|c s IH]; [done|]. simpl.
  destruct (Py.is_space c); [|done]. intros Hs. specialize (IH Hs).
  destruct (Py.split_go s) as [w ws]. simpl. by destruct w.
Qed.

Lemma lstrip_word s c t :
  Py.lstrip s = String c t → Py.is_space c = false.
Proof.
  induction s as [|c' s IH]; [done|]. simpl.
  destruct (Py.is_space c') eqn:Hc; [done|]. by intros [= <- _].
Qed.

Lemma split_word c t : Py.is_space c = false → Py.split (String c t) ≠ [].
Proof.
  intros Hc. unfold Py.split. simpl. rewrite Hc.
  by destruct (Py.split_go t).
Qed.

(** A line is blank for [strip] exactly when it has no token. *)
Lemma strip_blank s : Py.strip s = EmptyString ↔ Py.split s = [].
Proof.
  rewrite <-(split_strip s). unfold Py.strip.
  destruct (Py.lstrip (Py.rstrip s)) as [|c t] eqn:Hl; [done|].
  split; [done|]. intros Hsplit. exfalso.
  by apply (split_word c t (lstrip_word _ _ _ Hl)).
Qed.

End Stripping.

(** X14. Blanks around a command do not count: the line stripped, as
    [handle] passes it on, is answered as the line itself and leaves the
    same ledger, whatever the ledger object; and [strip] leaves nothing of
    a line exactly when the line has no token. *)
Theorem strip_keeps_answer {S : Type} `{Ledger S} (bank_ip line : string) (st : S) :
  process_command bank_ip (Py.strip line) st = process_command bank_ip line st
  ∧ (Py.strip line = EmptyString ↔ Py.split line = []).
Proof.
  split; [|apply strip_blank].
  unfold process_command. by rewrite split_strip.
Qed.

Section Sessions.

Context {S : Type} `{Ledger S}.

Implicit Types (st : S) (bank_ip : string) (reads : list received).

Lemma handle_serve_eq bank_ip reads st :
  handle bank_ip reads st
  = ((serve bank_ip (commands reads) st).1,
     (λ response, response +:+ String Py.LF EmptyString)
       <$> (serve bank_ip (commands reads) st).2).
Proof.
  revert st. induction reads as [|r reads IH]; intros st; [done|].
  destruct r as [[data|]| |]; try done.
  destruct data as [|c data]; [done|].
  change (handle bank_ip (Data (Some (String c data)) :: reads) st)
    with (match Py.strip (String c data) with
          | EmptyString => handle bank_ip reads st
          | command_line =>
              let '(st1, response) := process_command bank_ip command_line st in
              let '(st2, frames) := handle bank_ip reads st1 in
              (st2, (response +:+ String Py.LF EmptyString) :: frames)
          end).
  change (commands (Data (Some (String c data)) :: reads))
    with (match Py.strip (String c data) with
          | EmptyString => commands reads
          | command_line => command_line :: commands reads
          end).
  destruct (Py.strip (String c data)) as [|c' line]; [apply IH|].
  simpl. destruct (process_command bank_ip (String c' line) st) as [st1 response].
  rewrite IH. by destruct (serve bank_ip (commands reads) st1).
Qed.




End Sessions.


Section SessionsOnBankData.

Implicit Types (st : BankData) (bank_ip line : string).


Lemma process_command_calls bank_ip line st :
  ∃ cs, Forall amount_ok cs ∧ Forall account_in_range cs
        ∧ (process_command bank_ip line st).1 = run cs st.
Proof.
  rewrite process_command_plan.
  destruct (Py.split line) as [|verb rest]; [by exists []|].
  destruct (plan bank_ip (Py.upper verb) (verb :: rest)) as [[response|e]|c] eqn:Hc;
    simpl; [by exists []..|].
  exists [c]. split; [constructor; [by eapply plan_amount_ok|done]|].
  split; [constructor; [by eapply plan_account_range|done]|].
  by destruct (perform_BankData bank_ip c st) as (response & -> & _).
Qed.

Lemma run_app (cs1 cs2 : list call) st :
  run (cs1 ++ cs2)%list st = run cs2 (run cs1 st).
Proof. revert st. induction cs1 as [|c cs1 IH]; intros st; simpl; [done|apply IH]. Qed.

Lemma serve_calls bank_ip (lines : list string) st :
  ∃ cs, Forall amount_ok cs ∧ Forall account_in_range cs
        ∧ (serve bank_ip lines st).1 = run cs st.
Proof.
  revert st. induction lines as [|line lines IH]; intros st; [by exists []|].
  simpl. destruct (process_command_calls bank_ip line st) as (cs1 & H1 & H1' & Hst).
  destruct (process_command bank_ip line st) as [st1 response]. simpl in Hst.
  destruct (IH st1) as (cs2 & H2 & H2' & Hst2).
  destruct (serve bank_ip lines st1) as [st2 responses]. simpl in *.
  exists (cs1 ++ cs2)%list. rewrite run_app, <-Hst, <-Hst2.
  split; [by apply Forall_app|]. split; [by apply Forall_app|done].
Qed.


End SessionsOnBankData.



(** X17. A connection acts on the ledger as a history of calls: what
    [handle] (or any sequence of command lines) leaves of a ledger is what
    some calls leave of it, each with an account number between 10000 and
    99999 and an amount that is not negative. So what holds of every
    ledger built by such calls on a new one holds after every connection:
    the counter is between 9999 and 99999, each account has a number
    handed out so far, and no balance is negative. *)
Theorem session_is_history (bank_ip : string) (reads : list received)
  (st : BankData) :
  (∃ cs, Forall amount_ok cs ∧ Forall account_in_range cs
         ∧ (handle bank_ip reads st).1 = run cs st)
  ∧ ledger_inv (handle bank_ip reads fresh_ledger).1
  ∧ balances_nonneg (handle bank_ip reads fresh_ledger).1.
Proof.
  split.
  - rewrite handle_serve_eq. simpl. apply serve_calls.
  - rewrite handle_serve_eq. simpl.
    destruct (serve_calls bank_ip (commands reads) fresh_ledger)
      as (cs & Hok & _ & ->).
    split; [apply inv_run, inv_fresh|by apply nonneg_run, nonneg_fresh].
Qed.

